(** * Play Mode Controller of the NovelMind editor

    A shallow embedding of [editor/src/play_mode_controller.cpp] and of the
    declarations of [play_mode_controller.hpp]: the play-mode state machine,
    the breakpoint registry, the runtime variable table and the play
    statistics, together with the calls the controller makes on its
    collaborators (listeners, event bus, timeline playback engine), which are
    recorded in order in an outbound log.

    Conventions
    - [f64] is IEEE-754 binary64, Rocq's primitive [float];
    - [u32] and [u64] counters are [N] with the wrap-around written out;
    - [std::vector] is [list], iterators returned by [std::find_if] are the
      index given by [list_find]; [std::unordered_map<string,string>] is
      [gmap string string];
    - listener callbacks are assumed not to call back into the controller:
      a callback is an entry of the outbound log. *)

From Stdlib Require Import PrimFloat SpecFloat FloatOps FloatAxioms.
From stdpp Require Import gmap strings list pretty.

(** ** Machine numbers *)

Definition f64 := float.

Definition u32_incr (n : N) : N := ((n + 1) `mod` 2 ^ 32)%N.
Definition u64_incr (n : N) : N := ((n + 1) `mod` 2 ^ 64)%N.

(** [static_cast<f64>] of a [u32]: exact, every [u32] fits the 53 bit
    significand. *)
Fixpoint f64_of_positive (p : positive) : f64 :=
  match p with
  | xH => 1%float
  | xO q => (2 * f64_of_positive q)%float
  | xI q => (2 * f64_of_positive q + 1)%float
  end.

Definition f64_of_u32 (n : N) : f64 :=
  match n with
  | N0 => 0%float
  | Npos p => f64_of_positive p
  end.

(** [std::min(a, b)] is [(b < a) ? b : a], [std::max(a, b)] is
    [(a < b) ? b : a]. *)
Definition std_min (a b : f64) : f64 := if (b <? a)%float then b else a.
Definition std_max (a b : f64) : f64 := if (a <? b)%float then b else a.

(** ** Data model (play_mode_controller.hpp) *)

Inductive PlayModeState : Set :=
| Stopped
| Starting
| Playing
| Paused
| Stopping.

#[global] Instance PlayModeState_eq_dec : EqDecision PlayModeState.
Proof. solve_decision. Defined.

Record PlayModeConfig : Type := mkPlayModeConfig {
  startFromCurrentScene : bool;
  maximizeSceneView : bool;
  muteAudio : bool;
  showDebugOverlay : bool;
  pauseOnError : bool;
  enableBreakpoints : bool;
  timeScale : f64;
  startSceneId : string;
  enabledDebugViews : list string
}.

(** The member initialisers of [struct PlayModeConfig]. *)
Definition PlayModeConfig_default : PlayModeConfig :=
  {| startFromCurrentScene := true;
     maximizeSceneView := false;
     muteAudio := false;
     showDebugOverlay := true;
     pauseOnError := true;
     enableBreakpoints := true;
     timeScale := 1%float;
     startSceneId := "";
     enabledDebugViews := [] |}.

Record SceneSnapshot : Type := mkSceneSnapshot {
  snap_sceneId : string;
  snap_serializedData : list N;
  snap_timelinePosition : f64;
  snap_selectedObjects : list string;
  snap_variableStates : gmap string string
}.

Record Breakpoint : Type := mkBreakpoint {
  bp_id : string;
  bp_nodeId : string;
  bp_condition : string;
  bp_enabled : bool;
  bp_hitOnce : bool;
  bp_hitCount : N
}.

Record PlayModeStats : Type := mkPlayModeStats {
  totalPlayTime : f64;
  frameCount : N;
  averageFps : f64;
  minFrameTime : f64;
  maxFrameTime : f64;
  scriptErrorCount : N;
  warningCount : N;
  visitedNodes : list string;
  nodeVisitCounts : gmap string N
}.

(** [PlayModeStats{}]. *)
Definition PlayModeStats_default : PlayModeStats :=
  {| totalPlayTime := 0%float;
     frameCount := 0%N;
     averageFps := 0%float;
     minFrameTime := 0%float;
     maxFrameTime := 0%float;
     scriptErrorCount := 0%N;
     warningCount := 0%N;
     visitedNodes := [];
     nodeVisitCounts := ∅ |}.

(** Events published on the event bus. *)
Inductive EditorEvent : Type :=
| PlayModeStateChangedEvent (previousState newState : PlayModeState)
| BreakpointHitEvent (breakpointId nodeId : string) (hitCount : N)
| PlayModeErrorEvent (errorMessage nodeId scriptName : string) (lineNumber : N).

(** A listener is the address held in [m_listeners]; so is the editor
    application. *)
Definition Listener := N.
Definition EditorApp := N.

(** Every call the controller makes on a collaborator. *)
Inductive Effect : Type :=
| Listener_onPlayModeStateChanged (l : Listener) (oldState newState : PlayModeState)
| Listener_onPlayModeStarting (l : Listener)
| Listener_onPlayModeStarted (l : Listener)
| Listener_onPlayModePaused (l : Listener)
| Listener_onPlayModeResumed (l : Listener)
| Listener_onPlayModeStopping (l : Listener)
| Listener_onPlayModeStopped (l : Listener)
| Listener_onBreakpointHit (l : Listener) (breakpoint : Breakpoint)
| Listener_onScriptError (l : Listener) (error nodeId : string)
| EventBus_publish (event : EditorEvent)
| Timeline_play
| Timeline_pause
| Timeline_resume
| Timeline_stop
| Timeline_setSpeed (speed : f64)
| Timeline_jumpToStart
| Timeline_seekTo (time : f64)
| Timeline_update (scaledDelta : f64).

(** The members of [class PlayModeController], and [outbound], the log of
    the calls made on the collaborators so far. *)
Record PlayModeController : Type := mkPlayModeController {
  m_state : PlayModeState;
  m_config : PlayModeConfig;
  m_defaultConfig : PlayModeConfig;
  m_stats : PlayModeStats;
  m_sceneSnapshot : option SceneSnapshot;
  m_breakpoints : list Breakpoint;
  m_nextBreakpointId : N;
  m_atBreakpoint : bool;
  m_currentBreakpointId : string;
  m_variables : gmap string string;
  m_currentNodeId : string;
  m_currentSceneId : string;
  m_lastFrameTime : f64;
  m_frameTimeAccumulator : f64;
  m_frameTimeCount : N;
  m_listeners : list Listener;
  m_app : option EditorApp;
  outbound : list Effect
}.

(** The default member initialisers: the controller as constructed. *)
Definition PlayModeController_new : PlayModeController :=
  {| m_state := Stopped;
     m_config := PlayModeConfig_default;
     m_defaultConfig := PlayModeConfig_default;
     m_stats := PlayModeStats_default;
     m_sceneSnapshot := None;
     m_breakpoints := [];
     m_nextBreakpointId := 1%N;
     m_atBreakpoint := false;
     m_currentBreakpointId := "";
     m_variables := ∅;
     m_currentNodeId := "";
     m_currentSceneId := "";
     m_lastFrameTime := 0%float;
     m_frameTimeAccumulator := 0%float;
     m_frameTimeCount := 0%N;
     m_listeners := [];
     m_app := None;
     outbound := [] |}.

(** ** Assignments to members *)

Definition set_state (v : PlayModeState) (s : PlayModeController) : PlayModeController :=
  mkPlayModeController v (m_config s) (m_defaultConfig s) (m_stats s)
    (m_sceneSnapshot s) (m_breakpoints s) (m_nextBreakpointId s)
    (m_atBreakpoint s) (m_currentBreakpointId s) (m_variables s)
    (m_currentNodeId s) (m_currentSceneId s) (m_lastFrameTime s)
    (m_frameTimeAccumulator s) (m_frameTimeCount s) (m_listeners s) (m_app s)
    (outbound s).

Definition set_config (v : PlayModeConfig) (s : PlayModeController) : PlayModeController :=
  mkPlayModeController (m_state s) v (m_defaultConfig s) (m_stats s)
    (m_sceneSnapshot s) (m_breakpoints s) (m_nextBreakpointId s)
    (m_atBreakpoint s) (m_currentBreakpointId s) (m_variables s)
    (m_currentNodeId s) (m_currentSceneId s) (m_lastFrameTime s)
    (m_frameTimeAccumulator s) (m_frameTimeCount s) (m_listeners s) (m_app s)
    (outbound s).

Definition set_defaultConfig (v : PlayModeConfig) (s : PlayModeController) : PlayModeController :=
  mkPlayModeController (m_state s) (m_config s) v (m_stats s)
    (m_sceneSnapshot s) (m_breakpoints s) (m_nextBreakpointId s)
    (m_atBreakpoint s) (m_currentBreakpointId s) (m_variables s)
    (m_currentNodeId s) (m_currentSceneId s) (m_lastFrameTime s)
    (m_frameTimeAccumulator s) (m_frameTimeCount s) (m_listeners s) (m_app s)
    (outbound s).

Definition set_stats (v : PlayModeStats) (s : PlayModeController) : PlayModeController :=
  mkPlayModeController (m_state s) (m_config s) (m_defaultConfig s) v
    (m_sceneSnapshot s) (m_breakpoints s) (m_nextBreakpointId s)
    (m_atBreakpoint s) (m_currentBreakpointId s) (m_variables s)
    (m_currentNodeId s) (m_currentSceneId s) (m_lastFrameTime s)
    (m_frameTimeAccumulator s) (m_frameTimeCount s) (m_listeners s) (m_app s)
    (outbound s).

Definition set_sceneSnapshot (v : option SceneSnapshot) (s : PlayModeController) : PlayModeController :=
  mkPlayModeController (m_state s) (m_config s) (m_defaultConfig s) (m_stats s)
    v (m_breakpoints s) (m_nextBreakpointId s)
    (m_atBreakpoint s) (m_currentBreakpointId s) (m_variables s)
    (m_currentNodeId s) (m_currentSceneId s) (m_lastFrameTime s)
    (m_frameTimeAccumulator s) (m_frameTimeCount s) (m_listeners s) (m_app s)
    (outbound s).

Definition set_breakpoints (v : list Breakpoint) (s : PlayModeController) : PlayModeController :=
  mkPlayModeController (m_state s) (m_config s) (m_defaultConfig s) (m_stats s)
    (m_sceneSnapshot s) v (m_nextBreakpointId s)
    (m_atBreakpoint s) (m_currentBreakpointId s) (m_variables s)
    (m_currentNodeId s) (m_currentSceneId s) (m_lastFrameTime s)
    (m_frameTimeAccumulator s) (m_frameTimeCount s) (m_listeners s) (m_app s)
    (outbound s).

Definition set_nextBreakpointId (v : N) (s : PlayModeController) : PlayModeController :=
  mkPlayModeController (m_state s) (m_config s) (m_defaultConfig s) (m_stats s)
    (m_sceneSnapshot s) (m_breakpoints s) v
    (m_atBreakpoint s) (m_currentBreakpointId s) (m_variables s)
    (m_currentNodeId s) (m_currentSceneId s) (m_lastFrameTime s)
    (m_frameTimeAccumulator s) (m_frameTimeCount s) (m_listeners s) (m_app s)
    (outbound s).

Definition set_atBreakpoint (v : bool) (s : PlayModeController) : PlayModeController :=
  mkPlayModeController (m_state s) (m_config s) (m_defaultConfig s) (m_stats s)
    (m_sceneSnapshot s) (m_breakpoints s) (m_nextBreakpointId s)
    v (m_currentBreakpointId s) (m_variables s)
    (m_currentNodeId s) (m_currentSceneId s) (m_lastFrameTime s)
    (m_frameTimeAccumulator s) (m_frameTimeCount s) (m_listeners s) (m_app s)
    (outbound s).

Definition set_currentBreakpointId (v : string) (s : PlayModeController) : PlayModeController :=
  mkPlayModeController (m_state s) (m_config s) (m_defaultConfig s) (m_stats s)
    (m_sceneSnapshot s) (m_breakpoints s) (m_nextBreakpointId s)
    (m_atBreakpoint s) v (m_variables s)
    (m_currentNodeId s) (m_currentSceneId s) (m_lastFrameTime s)
    (m_frameTimeAccumulator s) (m_frameTimeCount s) (m_listeners s) (m_app s)
    (outbound s).

Definition set_variables (v : gmap string string) (s : PlayModeController) : PlayModeController :=
  mkPlayModeController (m_state s) (m_config s) (m_defaultConfig s) (m_stats s)
    (m_sceneSnapshot s) (m_breakpoints s) (m_nextBreakpointId s)
    (m_atBreakpoint s) (m_currentBreakpointId s) v
    (m_currentNodeId s) (m_currentSceneId s) (m_lastFrameTime s)
    (m_frameTimeAccumulator s) (m_frameTimeCount s) (m_listeners s) (m_app s)
    (outbound s).

Definition set_currentNodeId (v : string) (s : PlayModeController) : PlayModeController :=
  mkPlayModeController (m_state s) (m_config s) (m_defaultConfig s) (m_stats s)
    (m_sceneSnapshot s) (m_breakpoints s) (m_nextBreakpointId s)
    (m_atBreakpoint s) (m_currentBreakpointId s) (m_variables s)
    v (m_currentSceneId s) (m_lastFrameTime s)
    (m_frameTimeAccumulator s) (m_frameTimeCount s) (m_listeners s) (m_app s)
    (outbound s).

Definition set_currentSceneId (v : string) (s : PlayModeController) : PlayModeController :=
  mkPlayModeController (m_state s) (m_config s) (m_defaultConfig s) (m_stats s)
    (m_sceneSnapshot s) (m_breakpoints s) (m_nextBreakpointId s)
    (m_atBreakpoint s) (m_currentBreakpointId s) (m_variables s)
    (m_currentNodeId s) v (m_lastFrameTime s)
    (m_frameTimeAccumulator s) (m_frameTimeCount s) (m_listeners s) (m_app s)
    (outbound s).

Definition set_lastFrameTime (v : f64) (s : PlayModeController) : PlayModeController :=
  mkPlayModeController (m_state s) (m_config s) (m_defaultConfig s) (m_stats s)
    (m_sceneSnapshot s) (m_breakpoints s) (m_nextBreakpointId s)
    (m_atBreakpoint s) (m_currentBreakpointId s) (m_variables s)
    (m_currentNodeId s) (m_currentSceneId s) v
    (m_frameTimeAccumulator s) (m_frameTimeCount s) (m_listeners s) (m_app s)
    (outbound s).

Definition set_frameTimeAccumulator (v : f64) (s : PlayModeController) : PlayModeController :=
  mkPlayModeController (m_state s) (m_config s) (m_defaultConfig s) (m_stats s)
    (m_sceneSnapshot s) (m_breakpoints s) (m_nextBreakpointId s)
    (m_atBreakpoint s) (m_currentBreakpointId s) (m_variables s)
    (m_currentNodeId s) (m_currentSceneId s) (m_lastFrameTime s)
    v (m_frameTimeCount s) (m_listeners s) (m_app s)
    (outbound s).

Definition set_frameTimeCount (v : N) (s : PlayModeController) : PlayModeController :=
  mkPlayModeController (m_state s) (m_config s) (m_defaultConfig s) (m_stats s)
    (m_sceneSnapshot s) (m_breakpoints s) (m_nextBreakpointId s)
    (m_atBreakpoint s) (m_currentBreakpointId s) (m_variables s)
    (m_currentNodeId s) (m_currentSceneId s) (m_lastFrameTime s)
    (m_frameTimeAccumulator s) v (m_listeners s) (m_app s)
    (outbound s).

Definition set_listeners (v : list Listener) (s : PlayModeController) : PlayModeController :=
  mkPlayModeController (m_state s) (m_config s) (m_defaultConfig s) (m_stats s)
    (m_sceneSnapshot s) (m_breakpoints s) (m_nextBreakpointId s)
    (m_atBreakpoint s) (m_currentBreakpointId s) (m_variables s)
    (m_currentNodeId s) (m_currentSceneId s) (m_lastFrameTime s)
    (m_frameTimeAccumulator s) (m_frameTimeCount s) v (m_app s)
    (outbound s).

Definition set_app (v : option EditorApp) (s : PlayModeController) : PlayModeController :=
  mkPlayModeController (m_state s) (m_config s) (m_defaultConfig s) (m_stats s)
    (m_sceneSnapshot s) (m_breakpoints s) (m_nextBreakpointId s)
    (m_atBreakpoint s) (m_currentBreakpointId s) (m_variables s)
    (m_currentNodeId s) (m_currentSceneId s) (m_lastFrameTime s)
    (m_frameTimeAccumulator s) (m_frameTimeCount s) (m_listeners s) v
    (outbound s).

Definition set_outbound (v : list Effect) (s : PlayModeController) : PlayModeController :=
  mkPlayModeController (m_state s) (m_config s) (m_defaultConfig s) (m_stats s)
    (m_sceneSnapshot s) (m_breakpoints s) (m_nextBreakpointId s)
    (m_atBreakpoint s) (m_currentBreakpointId s) (m_variables s)
    (m_currentNodeId s) (m_currentSceneId s) (m_lastFrameTime s)
    (m_frameTimeAccumulator s) (m_frameTimeCount s) (m_listeners s) (m_app s)
    v.

(** One call on a collaborator, and one callback on every registered
    listener in registration order ([for (auto* listener : m_listeners)]). *)
Definition emit (e : Effect) (s : PlayModeController) : PlayModeController :=
  set_outbound (outbound s ++ [e]) s.

Definition for_each_listener (f : Listener → Effect) (s : PlayModeController)
  : PlayModeController :=
  set_outbound (outbound s ++ (f <$> m_listeners s)) s.

(** ** Operations (play_mode_controller.cpp) *)

(** [TimelinePlaybackEngine::instance().getCurrentTime()]. The playback
    engine is a collaborator outside this repository's sources: the time it
    reports is taken as a function of the outbound calls made so far. *)
Class TimelinePlaybackEngine : Type :=
  Timeline_getCurrentTime : list Effect → f64.

Section Controller.

Context `{!TimelinePlaybackEngine}.

(** [widgets::ToolbarButton] (imgui_integration.cpp) draws nothing yet and
    reports no click. *)
Definition ToolbarButton (icon tooltip : string) (selected : bool) : bool := false.

Definition isInPlayMode (s : PlayModeController) : bool :=
  bool_decide (m_state s = Playing) || bool_decide (m_state s = Paused)
  || bool_decide (m_state s = Starting) || bool_decide (m_state s = Stopping).

Definition getState (s : PlayModeController) : PlayModeState := m_state s.
Definition isPlaying (s : PlayModeController) : bool := bool_decide (m_state s = Playing).
Definition isPaused (s : PlayModeController) : bool := bool_decide (m_state s = Paused).
Definition isStopped (s : PlayModeController) : bool := bool_decide (m_state s = Stopped).

(** *** Notifications *)

Definition notifyStateChanged (oldState newState : PlayModeState)
  (s : PlayModeController) : PlayModeController :=
  for_each_listener (λ l, Listener_onPlayModeStateChanged l oldState newState) s.

Definition notifyBreakpointHit (breakpoint : Breakpoint)
  (s : PlayModeController) : PlayModeController :=
  let s := for_each_listener (λ l, Listener_onBreakpointHit l breakpoint) s in
  emit (EventBus_publish
          (BreakpointHitEvent (bp_id breakpoint) (bp_nodeId breakpoint)
             (bp_hitCount breakpoint))) s.

(** *** Statistics *)

Definition resetStats (s : PlayModeController) : PlayModeController :=
  let s := set_stats PlayModeStats_default s in
  let s := set_lastFrameTime 0%float s in
  let s := set_frameTimeAccumulator 0%float s in
  set_frameTimeCount 0%N s.

Definition updateStats (deltaTime : f64) (s : PlayModeController) : PlayModeController :=
  let st := m_stats s in
  let st := mkPlayModeStats (totalPlayTime st + deltaTime)%float
              (u32_incr (frameCount st)) (averageFps st) (minFrameTime st)
              (maxFrameTime st) (scriptErrorCount st) (warningCount st)
              (visitedNodes st) (nodeVisitCounts st) in
  let s := set_stats st s in
  let s := set_lastFrameTime deltaTime s in
  let s := set_frameTimeAccumulator (m_frameTimeAccumulator s + deltaTime)%float s in
  let s := set_frameTimeCount (u32_incr (m_frameTimeCount s)) s in
  let st := m_stats s in
  let st :=
    if bool_decide (frameCount st = 1%N) || (deltaTime <? minFrameTime st)%float
    then mkPlayModeStats (totalPlayTime st) (frameCount st) (averageFps st)
           deltaTime (maxFrameTime st) (scriptErrorCount st) (warningCount st)
           (visitedNodes st) (nodeVisitCounts st)
    else st in
  let st :=
    if (maxFrameTime st <? deltaTime)%float
    then mkPlayModeStats (totalPlayTime st) (frameCount st) (averageFps st)
           (minFrameTime st) deltaTime (scriptErrorCount st) (warningCount st)
           (visitedNodes st) (nodeVisitCounts st)
    else st in
  let s := set_stats st s in
  if (1 <=? m_frameTimeAccumulator s)%float
  then
    let st := m_stats s in
    let st := mkPlayModeStats (totalPlayTime st) (frameCount st)
                (f64_of_u32 (m_frameTimeCount s) / m_frameTimeAccumulator s)%float
                (minFrameTime st) (maxFrameTime st) (scriptErrorCount st)
                (warningCount st) (visitedNodes st) (nodeVisitCounts st) in
    let s := set_stats st s in
    let s := set_frameTimeAccumulator 0%float s in
    set_frameTimeCount 0%N s
  else s.

(** *** Scene snapshot *)

Definition captureSceneSnapshot (s : PlayModeController) : PlayModeController :=
  set_sceneSnapshot
    (Some {| snap_sceneId := m_currentSceneId s;
             snap_serializedData := [];
             snap_timelinePosition := Timeline_getCurrentTime (outbound s);
             snap_selectedObjects := [];
             snap_variableStates := ∅ |}) s.

Definition restoreSceneSnapshot (s : PlayModeController) : PlayModeController :=
  match m_sceneSnapshot s with
  | None => s
  | Some snap =>
      let s := emit (Timeline_seekTo (snap_timelinePosition snap)) s in
      set_sceneSnapshot None s
  end.

(** *** Entering and leaving play mode *)

Definition enterPlayMode (s : PlayModeController) : PlayModeController :=
  let oldState := m_state s in
  let s := set_state Starting s in
  let s := notifyStateChanged oldState (m_state s) s in
  let s := for_each_listener Listener_onPlayModeStarting s in
  let s := captureSceneSnapshot s in
  let s := resetStats s in
  let s := emit (Timeline_setSpeed (timeScale (m_config s))) s in
  let s := if negb (startFromCurrentScene (m_config s))
           then emit Timeline_jumpToStart s else s in
  let oldState := m_state s in
  let s := set_state Playing s in
  let s := emit Timeline_play s in
  let s := notifyStateChanged oldState (m_state s) s in
  let s := for_each_listener Listener_onPlayModeStarted s in
  emit (EventBus_publish (PlayModeStateChangedEvent oldState (m_state s))) s.

Definition exitPlayMode (s : PlayModeController) : PlayModeController :=
  let oldState := m_state s in
  let s := set_state Stopping s in
  let s := notifyStateChanged oldState (m_state s) s in
  let s := for_each_listener Listener_onPlayModeStopping s in
  let s := emit Timeline_stop s in
  let s := restoreSceneSnapshot s in
  let s := set_variables ∅ s in
  let s := set_atBreakpoint false s in
  let s := set_currentBreakpointId "" s in
  let s := set_currentNodeId "" s in
  let s := set_currentSceneId "" s in
  let oldState := m_state s in
  let s := set_state Stopped s in
  let s := notifyStateChanged oldState (m_state s) s in
  let s := for_each_listener Listener_onPlayModeStopped s in
  emit (EventBus_publish (PlayModeStateChangedEvent oldState (m_state s))) s.

(** *** Play controls *)

Definition play_with (config : PlayModeConfig) (s : PlayModeController)
  : PlayModeController :=
  if decide (m_state s ≠ Stopped) then s
  else
    let s := set_config config s in
    enterPlayMode s.

Definition play (s : PlayModeController) : PlayModeController :=
  play_with (m_defaultConfig s) s.

Definition pause (s : PlayModeController) : PlayModeController :=
  if decide (m_state s ≠ Playing) then s
  else
    let oldState := m_state s in
    let s := set_state Paused s in
    let s := emit Timeline_pause s in
    let s := notifyStateChanged oldState (m_state s) s in
    let s := for_each_listener Listener_onPlayModePaused s in
    emit (EventBus_publish (PlayModeStateChangedEvent oldState (m_state s))) s.

Definition resume (s : PlayModeController) : PlayModeController :=
  if decide (m_state s ≠ Paused) then s
  else if m_atBreakpoint s then s
  else
    let oldState := m_state s in
    let s := set_state Playing s in
    let s := emit Timeline_resume s in
    let s := notifyStateChanged oldState (m_state s) s in
    let s := for_each_listener Listener_onPlayModeResumed s in
    emit (EventBus_publish (PlayModeStateChangedEvent oldState (m_state s))) s.

Definition stop (s : PlayModeController) : PlayModeController :=
  if decide (m_state s = Stopped) then s
  else exitPlayMode s.

Definition continueExecution (s : PlayModeController) : PlayModeController :=
  if negb (m_atBreakpoint s) then s
  else
    let s := set_atBreakpoint false s in
    let s := set_currentBreakpointId "" s in
    if decide (m_state s = Paused)
    then
      let oldState := m_state s in
      let s := set_state Playing s in
      let s := emit Timeline_resume s in
      let s := notifyStateChanged oldState (m_state s) s in
      for_each_listener Listener_onPlayModeResumed s
    else s.

Definition togglePlayPause (s : PlayModeController) : PlayModeController :=
  match m_state s with
  | Stopped => play s
  | Playing => pause s
  | Paused => if m_atBreakpoint s then continueExecution s else resume s
  | _ => s
  end.

Definition restart (s : PlayModeController) : PlayModeController :=
  if decide (m_state s = Stopped) then play s
  else
    let s := emit Timeline_jumpToStart s in
    let s := resetStats s in
    let s := set_variables ∅ s in
    let s := set_atBreakpoint false s in
    let s := set_currentBreakpointId "" s in
    if decide (m_state s = Paused) then resume s else s.

(** *** Lifecycle and configuration *)

Definition initialize (app : option EditorApp) (s : PlayModeController)
  : PlayModeController :=
  let s := set_app app s in
  let d := m_defaultConfig s in
  let d := mkPlayModeConfig true (maximizeSceneView d) (muteAudio d) true true
             true 1%float (startSceneId d) (enabledDebugViews d) in
  let s := set_defaultConfig d s in
  set_config (m_defaultConfig s) s.

Definition shutdown (s : PlayModeController) : PlayModeController :=
  let s := if isInPlayMode s then stop s else s in
  let s := set_listeners [] s in
  let s := set_breakpoints [] s in
  let s := set_variables ∅ s in
  set_app None s.

Definition setDefaultConfig (config : PlayModeConfig) (s : PlayModeController)
  : PlayModeController :=
  set_defaultConfig config s.

Definition setTimeScale (scale : f64) (s : PlayModeController) : PlayModeController :=
  let c := m_config s in
  let c := mkPlayModeConfig (startFromCurrentScene c) (maximizeSceneView c)
             (muteAudio c) (showDebugOverlay c) (pauseOnError c)
             (enableBreakpoints c) (std_max 0%float (std_min scale 10%float))
             (startSceneId c) (enabledDebugViews c) in
  let s := set_config c s in
  if isInPlayMode s then emit (Timeline_setSpeed (timeScale (m_config s))) s else s.

(** *** Breakpoint registry *)

Definition getBreakpoints (s : PlayModeController) : list Breakpoint := m_breakpoints s.

Definition getBreakpointForNode (nodeId : string) (s : PlayModeController)
  : option Breakpoint :=
  match list_find (λ bp, bp_nodeId bp = nodeId) (m_breakpoints s) with
  | Some (_, bp) => Some bp
  | None => None
  end.

(** [oss << "bp_" << m_nextBreakpointId++]: the id and the controller with
    the counter advanced. *)
Definition generateBreakpointId (s : PlayModeController) : string * PlayModeController :=
  ("bp_" +:+ pretty (m_nextBreakpointId s),
   set_nextBreakpointId (u64_incr (m_nextBreakpointId s)) s).

Definition addBreakpoint (nodeId condition : string) (s : PlayModeController)
  : PlayModeController :=
  match getBreakpointForNode nodeId s with
  | Some _ => s
  | None =>
      let '(id, s) := generateBreakpointId s in
      let bp := {| bp_id := id; bp_nodeId := nodeId; bp_condition := condition;
                   bp_enabled := true; bp_hitOnce := false; bp_hitCount := 0%N |} in
      set_breakpoints (m_breakpoints s ++ [bp]) s
  end.

Definition removeBreakpoint (breakpointId : string) (s : PlayModeController)
  : PlayModeController :=
  match list_find (λ bp, bp_id bp = breakpointId) (m_breakpoints s) with
  | Some (it, _) => set_breakpoints (delete it (m_breakpoints s)) s
  | None => s
  end.

Definition toggleBreakpoint (nodeId : string) (s : PlayModeController)
  : PlayModeController :=
  match getBreakpointForNode nodeId s with
  | Some existing => removeBreakpoint (bp_id existing) s
  | None => addBreakpoint nodeId "" s
  end.

Definition Breakpoint_set_enabled (enabled : bool) (bp : Breakpoint) : Breakpoint :=
  mkBreakpoint (bp_id bp) (bp_nodeId bp) (bp_condition bp) enabled
    (bp_hitOnce bp) (bp_hitCount bp).

Definition setBreakpointEnabled (breakpointId : string) (enabled : bool)
  (s : PlayModeController) : PlayModeController :=
  match list_find (λ bp, bp_id bp = breakpointId) (m_breakpoints s) with
  | Some (it, _) =>
      set_breakpoints (alter (Breakpoint_set_enabled enabled) it (m_breakpoints s)) s
  | None => s
  end.

Definition clearAllBreakpoints (s : PlayModeController) : PlayModeController :=
  set_breakpoints [] s.

(** *** Scene control and variables *)

Definition jumpToScene (sceneId : string) (s : PlayModeController) : PlayModeController :=
  if negb (isInPlayMode s) then s else set_currentSceneId sceneId s.

Definition jumpToNode (nodeId : string) (s : PlayModeController) : PlayModeController :=
  if negb (isInPlayMode s) then s else set_currentNodeId nodeId s.

Definition setVariable (name value : string) (s : PlayModeController)
  : PlayModeController :=
  set_variables (<[name:=value]> (m_variables s)) s.

Definition getVariable (name : string) (s : PlayModeController) : string :=
  match m_variables s !! name with
  | Some v => v
  | None => ""
  end.

Definition getAllVariables (s : PlayModeController) : gmap string string :=
  m_variables s.

(** *** Per-frame update *)

(** [it->hitCount++]. *)
Definition Breakpoint_hit (bp : Breakpoint) : Breakpoint :=
  mkBreakpoint (bp_id bp) (bp_nodeId bp) (bp_condition bp) (bp_enabled bp)
    (bp_hitOnce bp) (u32_incr (bp_hitCount bp)).

(** The controller after each statement of [update], in the order in which
    the statements run: none when [update] returns at its guard; otherwise
    [updateStats] and the call of the playback engine, and on a breakpoint
    hit the flag, the current breakpoint id, [it->hitCount++], the
    [erase] of a [hitOnce] breakpoint, [pause()] and
    [notifyBreakpointHit]. *)
Definition update_states (deltaTime : f64) (s : PlayModeController)
  : list PlayModeController :=
  if decide (m_state s ≠ Playing) then []
  else
    let scaledDelta := (deltaTime * timeScale (m_config s))%float in
    let s1 := updateStats scaledDelta s in
    let s2 := emit (Timeline_update scaledDelta) s1 in
    [s1; s2] ++
    if enableBreakpoints (m_config s2) && bool_decide (m_currentNodeId s2 ≠ "")
    then
      match getBreakpointForNode (m_currentNodeId s2) s2 with
      | Some bp =>
          if bp_enabled bp
          then
            let s3 := set_atBreakpoint true s2 in
            let s4 := set_currentBreakpointId (bp_id bp) s3 in
            let counted :=
              match list_find (λ b, bp_id b = bp_id bp) (m_breakpoints s4) with
              | Some (it, b) =>
                  let s5 :=
                    set_breakpoints
                      (alter Breakpoint_hit it (m_breakpoints s4)) s4 in
                  if bp_hitOnce b
                  then [s5; set_breakpoints (delete it (m_breakpoints s5)) s5]
                  else [s5]
              | None => []
              end in
            let s6 := default s4 (last counted) in
            let s7 := pause s6 in
            [s3; s4] ++ counted ++ [s7; notifyBreakpointHit bp s7]
          else []
      | None => []
      end
    else [].

(** [update] leaves the controller of its last statement. *)
Definition update (deltaTime : f64) (s : PlayModeController) : PlayModeController :=
  default s (last (update_states deltaTime s)).

(** *** Stepping *)

Definition stepNext (s : PlayModeController) : PlayModeController :=
  if decide (m_state s ≠ Paused) then s
  else update (1 / 60)%float s.

Definition stepInto (s : PlayModeController) : PlayModeController :=
  if decide (m_state s ≠ Paused) then s
  else stepNext s.

Definition stepOut (s : PlayModeController) : PlayModeController :=
  if decide (m_state s ≠ Paused) then s
  else stepNext s.

(** *** Listeners *)

Definition addListener (listener : Listener) (s : PlayModeController)
  : PlayModeController :=
  match list_find (λ l, l = listener) (m_listeners s) with
  | None => set_listeners (m_listeners s ++ [listener]) s
  | Some _ => s
  end.

Definition removeListener (listener : Listener) (s : PlayModeController)
  : PlayModeController :=
  match list_find (λ l, l = listener) (m_listeners s) with
  | Some (it, _) => set_listeners (delete it (m_listeners s)) s
  | None => s
  end.

(** *** Error reporting (a private member that play_mode_controller.cpp
    never calls; it is not among the commands below) *)

Definition notifyError (error nodeId : string) (s : PlayModeController)
  : PlayModeController :=
  let st := m_stats s in
  let st := mkPlayModeStats (totalPlayTime st) (frameCount st) (averageFps st)
              (minFrameTime st) (maxFrameTime st) (u32_incr (scriptErrorCount st))
              (warningCount st) (visitedNodes st) (nodeVisitCounts st) in
  let s := set_stats st s in
  let s := for_each_listener (λ l, Listener_onScriptError l error nodeId) s in
  let s := emit (EventBus_publish (PlayModeErrorEvent error nodeId "" 0%N)) s in
  if pauseOnError (m_config s) && bool_decide (m_state s = Playing)
  then pause s else s.

(** *** Toolbar *)

Definition renderToolbar (s : PlayModeController) : PlayModeController :=
  let s :=
    if decide (m_state s = Playing)
    then
      if ToolbarButton "||" "Pause (Ctrl+P)" false then pause s else s
    else
      let enabled := bool_decide (m_state s = Stopped) || bool_decide (m_state s = Paused) in
      if ToolbarButton ">" "Play (Ctrl+P)" false && enabled
      then if decide (m_state s = Paused) then resume s else play s
      else s in
  let s :=
    let enabled := isInPlayMode s in
    if ToolbarButton "[]" "Stop (Ctrl+Shift+P)" false && enabled then stop s else s in
  if decide (m_state s = Paused)
  then
    let s := if ToolbarButton "|>" "Step Next (F10)" false then stepNext s else s in
    let s := if ToolbarButton "|>>" "Step Into (F11)" false then stepInto s else s in
    if ToolbarButton "<<|" "Step Out (Shift+F11)" false then stepOut s else s
  else s.

Definition renderDebugOverlay (s : PlayModeController) : PlayModeController :=
  if negb (isInPlayMode s) || negb (showDebugOverlay (m_config s)) then s else s.

(** ** The public interface as commands *)

Inductive Command : Type :=
| Call_initialize (app : option EditorApp)
| Call_shutdown
| Call_play
| Call_play_with (config : PlayModeConfig)
| Call_pause
| Call_resume
| Call_stop
| Call_togglePlayPause
| Call_restart
| Call_setDefaultConfig (config : PlayModeConfig)
| Call_setTimeScale (scale : f64)
| Call_stepNext
| Call_stepInto
| Call_stepOut
| Call_addBreakpoint (nodeId condition : string)
| Call_removeBreakpoint (breakpointId : string)
| Call_toggleBreakpoint (nodeId : string)
| Call_setBreakpointEnabled (breakpointId : string) (enabled : bool)
| Call_clearAllBreakpoints
| Call_continueExecution
| Call_jumpToScene (sceneId : string)
| Call_jumpToNode (nodeId : string)
| Call_setVariable (name value : string)
| Call_update (deltaTime : f64)
| Call_addListener (listener : Listener)
| Call_removeListener (listener : Listener)
| Call_renderToolbar
| Call_renderDebugOverlay.

Definition exec (c : Command) (s : PlayModeController) : PlayModeController :=
  match c with
  | Call_initialize app => initialize app s
  | Call_shutdown => shutdown s
  | Call_play => play s
  | Call_play_with config => play_with config s
  | Call_pause => pause s
  | Call_resume => resume s
  | Call_stop => stop s
  | Call_togglePlayPause => togglePlayPause s
  | Call_restart => restart s
  | Call_setDefaultConfig config => setDefaultConfig config s
  | Call_setTimeScale scale => setTimeScale scale s
  | Call_stepNext => stepNext s
  | Call_stepInto => stepInto s
  | Call_stepOut => stepOut s
  | Call_addBreakpoint nodeId condition => addBreakpoint nodeId condition s
  | Call_removeBreakpoint breakpointId => removeBreakpoint breakpointId s
  | Call_toggleBreakpoint nodeId => toggleBreakpoint nodeId s
  | Call_setBreakpointEnabled breakpointId enabled =>
      setBreakpointEnabled breakpointId enabled s
  | Call_clearAllBreakpoints => clearAllBreakpoints s
  | Call_continueExecution => continueExecution s
  | Call_jumpToScene sceneId => jumpToScene sceneId s
  | Call_jumpToNode nodeId => jumpToNode nodeId s
  | Call_setVariable name value => setVariable name value s
  | Call_update deltaTime => update deltaTime s
  | Call_addListener listener => addListener listener s
  | Call_removeListener listener => removeListener listener s
  | Call_renderToolbar => renderToolbar s
  | Call_renderDebugOverlay => renderDebugOverlay s
  end.

(** Commands run in order, the head of the list first. *)
Definition run (cs : list Command) (s : PlayModeController) : PlayModeController :=
  foldl (λ s c, exec c s) s cs.

(** The states a caller of the public interface can observe. *)
Definition reachable (s : PlayModeController) : Prop :=
  ∃ cs, s = run cs PlayModeController_new.

End Controller.

(** ** Definitions used by the statements *)

(** The block of [update] that runs once the looked-up breakpoint [bp] is
    found enabled, up to and excluding the call of [pause]. *)
Definition update_hit (bp : Breakpoint) (s : PlayModeController) : PlayModeController :=
  let s := set_atBreakpoint true s in
  let s := set_currentBreakpointId (bp_id bp) s in
  match list_find (λ b, bp_id b = bp_id bp) (m_breakpoints s) with
  | Some (it, b) =>
      let s := set_breakpoints (alter Breakpoint_hit it (m_breakpoints s)) s in
      if bp_hitOnce b
      then set_breakpoints (delete it (m_breakpoints s)) s
      else s
  | None => s
  end.

(** C5's invariant: the breakpoint flag is up only in a pause. *)
Definition atBreakpoint_inv (s : PlayModeController) : Prop :=
  m_atBreakpoint s = true → m_state s = Paused.

(** The registry and the id counter of a controller. *)
Definition registry (s : PlayModeController) : list Breakpoint * N :=
  (m_breakpoints s, m_nextBreakpointId s).

(** The registry as the registration API keeps it: one breakpoint per
    node, ids pairwise distinct, every id issued from a counter value
    below the current one. *)
Record registry_wf (r : list Breakpoint * N) : Prop := mk_registry_wf {
  wf_nodes : NoDup (bp_nodeId <$> r.1);
  wf_ids : NoDup (bp_id <$> r.1);
  wf_issued : ∀ bp, bp ∈ r.1 →
    ∃ k, (k < r.2)%N ∧ bp_id bp = "bp_" +:+ pretty k
}.

(** What one command can do to the registry and to the id counter. *)
Inductive registry_step : list Breakpoint * N → list Breakpoint * N → Prop :=
| registry_same l n : registry_step (l, n) (l, n)
| registry_clear l n : registry_step (l, n) ([], n)
| registry_add l n nodeId condition :
    list_find (λ bp, bp_nodeId bp = nodeId) l = None →
    registry_step (l, n)
      (l ++ [mkBreakpoint ("bp_" +:+ pretty n) nodeId condition true false 0%N],
       u64_incr n)
| registry_erase l n it : registry_step (l, n) (delete it l, n)
| registry_alter l n it g :
    (∀ bp, bp_id (g bp) = bp_id bp ∧ bp_nodeId (g bp) = bp_nodeId bp) →
    registry_step (l, n) (alter g it l, n)
| registry_alter_erase l n it g :
    (∀ bp, bp_id (g bp) = bp_id bp ∧ bp_nodeId (g bp) = bp_nodeId bp) →
    registry_step (l, n) (delete it (alter g it l), n).

(** The breakpoint [addBreakpoint] creates in [s]. *)
Definition new_breakpoint (nodeId condition : string) (s : PlayModeController)
  : Breakpoint :=
  mkBreakpoint ("bp_" +:+ pretty (m_nextBreakpointId s)) nodeId condition
    true false 0%N.

(** The controller [pause] is called on when an enabled breakpoint [bp],
    found at index [it], is hit: the frame has run, the flag is up, the hit
    is counted and a [hitOnce] breakpoint is already erased. *)
Definition hit_registered (deltaTime : f64) (it : nat) (bp : Breakpoint)
  (s : PlayModeController) : PlayModeController :=
  let scaledDelta := (deltaTime * timeScale (m_config s))%float in
  let s1 := emit (Timeline_update scaledDelta) (updateStats scaledDelta s) in
  let s1 := set_currentBreakpointId (bp_id bp) (set_atBreakpoint true s1) in
  set_breakpoints
    (if bp_hitOnce bp then delete it (m_breakpoints s)
     else alter Breakpoint_hit it (m_breakpoints s)) s1.

(** The calls [pause] makes on the collaborators when it applies. *)
Definition pause_calls (listeners : list Listener) : list Effect :=
  [Timeline_pause]
  ++ ((λ l, Listener_onPlayModeStateChanged l Playing Paused) <$> listeners)
  ++ (Listener_onPlayModePaused <$> listeners)
  ++ [EventBus_publish (PlayModeStateChangedEvent Playing Paused)].


(** The calls made on the collaborators between a controller [s] and a
    later controller [s']. *)
Definition calls_since (s s' : PlayModeController) : list Effect :=
  drop (length (outbound s)) (outbound s').

(** The listener a callback is made on. *)
Definition callback_listener (e : Effect) : option Listener :=
  match e with
  | Listener_onPlayModeStateChanged l _ _
  | Listener_onPlayModeStarting l
  | Listener_onPlayModeStarted l
  | Listener_onPlayModePaused l
  | Listener_onPlayModeResumed l
  | Listener_onPlayModeStopping l
  | Listener_onPlayModeStopped l
  | Listener_onBreakpointHit l _
  | Listener_onScriptError l _ _ => Some l
  | _ => None
  end.

(** The state change a call tells listener [l], if it is one. *)
Definition state_change_for (l : Listener) (e : Effect)
  : option (PlayModeState * PlayModeState) :=
  match e with
  | Listener_onPlayModeStateChanged l' oldState newState =>
      if decide (l' = l) then Some (oldState, newState) else None
  | _ => None
  end.

(** A listener that believes the state is [st] follows the calls of a log:
    every state change it is told must start from the state it believes,
    and moves it to the new state. *)
Fixpoint follow (l : Listener) (st : PlayModeState) (log : list Effect)
  : option PlayModeState :=
  match log with
  | [] => Some st
  | e :: log =>
      match state_change_for l e with
      | Some (oldState, newState) =>
          if decide (oldState = st) then follow l newState log else None
      | None => follow l st log
      end
  end.

(** The state changes published on the event bus, and the deltas passed to
    the playback engine, in a log. *)
Definition published_state_change (e : Effect)
  : option (PlayModeState * PlayModeState) :=
  match e with
  | EventBus_publish (PlayModeStateChangedEvent previousState newState) =>
      Some (previousState, newState)
  | _ => None
  end.

(** [Starting] and [Stopping]: the states held only inside [play] and
    [stop]. *)
Definition is_transient (st : PlayModeState) : bool :=
  match st with
  | Starting | Stopping => true
  | _ => false
  end.

Definition timeline_update (e : Effect) : option f64 :=
  match e with
  | Timeline_update scaledDelta => Some scaledDelta
  | _ => None
  end.

(** What holds of the controller between two public calls. *)
Definition session_inv (s : PlayModeController) : Prop :=
  (m_state s = Stopped ∨ m_state s = Playing ∨ m_state s = Paused)
  ∧ (m_sceneSnapshot s = None ↔ m_state s = Stopped)
  ∧ (∀ snap, m_sceneSnapshot s = Some snap → snap_sceneId snap = "")
  ∧ (m_state s = Stopped →
     m_atBreakpoint s = false ∧ m_currentNodeId s = ""
     ∧ m_currentSceneId s = "")
  ∧ (m_atBreakpoint s = false → m_currentBreakpointId s = "").

(** ** Scenarios *)

(** A playback engine that reports time 0 whatever it was told. *)
Definition Timeline_at_zero : TimelinePlaybackEngine := λ _, 0%float.

(** [play(); addBreakpoint("n1"); jumpToNode("n1")] with one listener: a
    session about to hit a breakpoint. *)
Definition before_hit : PlayModeController :=
  @run Timeline_at_zero
    [Call_addListener 7%N; Call_play; Call_addBreakpoint "n1" "";
     Call_jumpToNode "n1"]
    PlayModeController_new.

(** ... and after the next frame: paused at the breakpoint. *)
Definition at_hit : PlayModeController :=
  @exec Timeline_at_zero (Call_update (1 / 60)%float) before_hit.

(** The registry of the repository's test: one conditional breakpoint,
    registered while stopped. *)
Definition with_node_1 : PlayModeController :=
  @run Timeline_at_zero [Call_addBreakpoint "node_1" "points > 10"]
    PlayModeController_new.

(** The breakpoint of [before_hit]. *)
Definition bp_n1 : Breakpoint := mkBreakpoint "bp_1" "n1" "" true false 0%N.

(** A session with a breakpoint and a variable. *)
Definition in_session : PlayModeController :=
  @run Timeline_at_zero
    [Call_play; Call_addBreakpoint "node_1" "points > 10";
     Call_setVariable "points" "12"]
    PlayModeController_new.

(** The breakpoint of the test registered during a session that was then
    stopped. *)
Definition after_session : PlayModeController :=
  @run Timeline_at_zero
    [Call_play; Call_addBreakpoint "node_1" "points > 10"; Call_stop]
    PlayModeController_new.

(** [play(); pause()]: a paused session, where stepping applies. *)
Definition paused_session : PlayModeController :=
  @run Timeline_at_zero [Call_play; Call_pause] PlayModeController_new.

(** A controller caught in the transient state [Starting]. *)
Definition starting_controller : PlayModeController :=
  set_state Starting PlayModeController_new.

(** The commands that lead to [before_hit]. *)
Definition before_hit_commands : list Command :=
  [Call_addListener 7%N; Call_play; Call_addBreakpoint "n1" "";
   Call_jumpToNode "n1"].

(** The breakpoint of [with_node_1]. *)
Definition bp_node_1 : Breakpoint :=
  mkBreakpoint "bp_1" "node_1" "points > 10" true false 0%N.

(** ** Proof support *)

(** Members of an updated controller are computed call by value over the
    assignments and projections only: an assignment mentions its argument
    once per member, so unfolding before reducing would copy it. *)
Ltac ctl_eval :=
  cbv beta iota zeta delta
    [m_state m_config m_defaultConfig m_stats m_sceneSnapshot m_breakpoints
     m_nextBreakpointId m_atBreakpoint m_currentBreakpointId m_variables
     m_currentNodeId m_currentSceneId m_lastFrameTime m_frameTimeAccumulator
     m_frameTimeCount m_listeners m_app outbound
     emit for_each_listener set_state set_config set_defaultConfig
     set_stats set_sceneSnapshot set_breakpoints set_nextBreakpointId
     set_atBreakpoint set_currentBreakpointId set_variables
     set_currentNodeId set_currentSceneId set_lastFrameTime
     set_frameTimeAccumulator set_frameTimeCount set_listeners set_app
     set_outbound] in *.


(** ** Shapes of the building blocks *)

(** A case split on an innermost scrutinee: one that contains no further
    [match] or [if], so a projection waiting for a branch is never split. *)
Ltac ctl_case_step :=
  match goal with
  | |- context [match ?x with _ => _ end] =>
      lazymatch x with
      | context [match _ with _ => _ end] => fail
      | _ => destruct x eqn:?
      end
  end.

(** The operations are evaluated call by value as well, so that the
    controller an operation receives is computed before the operation's
    body copies it. *)
Ltac ctl_run :=
  cbv beta iota zeta delta
    [m_state m_config m_defaultConfig m_stats m_sceneSnapshot m_breakpoints
     m_nextBreakpointId m_atBreakpoint m_currentBreakpointId m_variables
     m_currentNodeId m_currentSceneId m_lastFrameTime m_frameTimeAccumulator
     m_frameTimeCount m_listeners m_app outbound
     emit for_each_listener set_state set_config set_defaultConfig
     set_stats set_sceneSnapshot set_breakpoints set_nextBreakpointId
     set_atBreakpoint set_currentBreakpointId set_variables
     set_currentNodeId set_currentSceneId set_lastFrameTime
     set_frameTimeAccumulator set_frameTimeCount set_listeners set_app
     set_outbound
     exec renderToolbar renderDebugOverlay shutdown togglePlayPause
     restart stepInto stepOut stepNext toggleBreakpoint notifyError
     initialize play play_with pause resume stop continueExecution
     setDefaultConfig setTimeScale addBreakpoint removeBreakpoint
     setBreakpointEnabled clearAllBreakpoints jumpToScene jumpToNode
     setVariable addListener removeListener enterPlayMode exitPlayMode
     captureSceneSnapshot restoreSceneSnapshot resetStats notifyStateChanged
     notifyBreakpointHit generateBreakpointId getBreakpointForNode
     getAllVariables getBreakpoints update_hit registry
     isInPlayMode ToolbarButton] in *.

Ltac ctl_cases := repeat (ctl_run; try done; ctl_case_step).

Section Shapes.

Context `{!TimelinePlaybackEngine}.

(** [updateStats] writes the statistics and the three frame-timing members
    and nothing else. *)
Lemma updateStats_shape deltaTime s :
  ∃ st l a c,
    updateStats deltaTime s =
    set_frameTimeCount c
      (set_frameTimeAccumulator a (set_lastFrameTime l (set_stats st s))).
Proof.
  destruct s. unfold updateStats. ctl_eval.
  repeat case_match; eauto.
Qed.

(** [update] by cases: it returns at the guard, or runs a frame without a
    breakpoint hit, or runs a frame, registers the hit, pauses and notifies,
    in this order. *)
Lemma update_unfold deltaTime s :
  update deltaTime s =
    if decide (m_state s ≠ Playing) then s
    else
      let scaledDelta := (deltaTime * timeScale (m_config s))%float in
      let s1 := emit (Timeline_update scaledDelta) (updateStats scaledDelta s) in
      if enableBreakpoints (m_config s) && bool_decide (m_currentNodeId s ≠ "")
      then
        match getBreakpointForNode (m_currentNodeId s) s with
        | Some bp =>
            if bp_enabled bp
            then notifyBreakpointHit bp (pause (update_hit bp s1))
            else s1
        | None => s1
        end
      else s1.
Proof.
  unfold update, update_states. case_decide; [done|].
  destruct (updateStats_shape (deltaTime * timeScale (m_config s))%float s)
    as (st & l & a & c & Heq).
  cbv zeta. rewrite !Heq. destruct s. unfold update_hit, getBreakpointForNode.
  ctl_eval.
  repeat (case_match; try done).
Qed.

Lemma update_not_Playing deltaTime s :
  m_state s ≠ Playing → update deltaTime s = s.
Proof. intros Hst. unfold update, update_states. by rewrite decide_True. Qed.

Lemma stepNext_id s : stepNext s = s.
Proof.
  unfold stepNext. case_decide; [done|].
  apply update_not_Playing. congruence.
Qed.

Lemma stepInto_id s : stepInto s = s.
Proof. unfold stepInto. case_decide; auto using stepNext_id. Qed.

Lemma stepOut_id s : stepOut s = s.
Proof. unfold stepOut. case_decide; auto using stepNext_id. Qed.

(** No toolbar button reports a click, so drawing the toolbar issues no
    command. *)
Lemma renderToolbar_id s : renderToolbar s = s.
Proof. unfold renderToolbar, ToolbarButton. cbn. by repeat case_decide. Qed.

Lemma renderDebugOverlay_id s : renderDebugOverlay s = s.
Proof. unfold renderDebugOverlay. by case_match. Qed.

End Shapes.

(** A case split on the command, for a goal about [exec c s]: the commands
    that change nothing are rewritten away, [update] is put in its case
    form with the statistics abstracted, and the state is split. *)
Ltac exec_cases c s :=
  destruct c; unfold exec;
  rewrite ?stepNext_id, ?stepInto_id, ?stepOut_id, ?renderToolbar_id,
    ?renderDebugOverlay_id;
  try (rewrite update_unfold; cbv zeta;
       match goal with
       | |- context [updateStats ?d s] =>
           destruct (updateStats_shape d s) as (? & ? & ? & ? & ->)
       end);
  destruct s as [[] ? ? ? ? ? ? ? ? ? ? ? ? ? ? ? ? ?].


(** ** What a command does to the registry *)

Section Registry.

Context `{!TimelinePlaybackEngine}.

Lemma exec_registry_step c s :
  registry_step (registry s) (registry (exec c s)).
Proof.
  exec_cases c s; ctl_cases.
  all: try (constructor; done || by intros []).
Qed.

End Registry.

(** ** Invariants of the registry *)

Section RegistryInvariants.

Context `{!TimelinePlaybackEngine}.

Lemma fmap_alter_same {A B} (f : A → B) (g : A → A) (it : nat) (l : list A) :
  (∀ x, f (g x) = f x) → f <$> alter g it l = f <$> l.
Proof.
  intros Hfg. rewrite (list_fmap_alter f g id).
  - apply list_alter_id. done.
  - apply Forall_forall. intros x _. apply Hfg.
Qed.

Lemma list_find_None_not_elem {A B} `{EqDecision B} (f : A → B) (y : B) (l : list A) :
  list_find (λ x, f x = y) l = None → y ∉ f <$> l.
Proof.
  rewrite list_find_None, Forall_forall. intros Hall Hin.
  apply list_elem_of_fmap in Hin as (x & -> & Hx). by apply (Hall x).
Qed.

Lemma NoDup_fmap_delete {A B} (f : A → B) (it : nat) (l : list A) :
  NoDup (f <$> l) → NoDup (f <$> delete it l).
Proof.
  intros Hnd. eapply sublist_NoDup; [exact Hnd|].
  apply fmap_sublist, sublist_delete.
Qed.

(** One breakpoint per node is kept by every step. *)
Lemma registry_step_nodes r r' :
  registry_step r r' → NoDup (bp_nodeId <$> r.1) → NoDup (bp_nodeId <$> r'.1).
Proof.
  destruct 1 as [l n|l n|l n nodeId condition Hnone|l n it|l n it g Hg|l n it g Hg];
    cbn; intros Hnd.
  - done.
  - constructor.
  - rewrite fmap_app. apply NoDup_app. split; [done|]. split.
    + intros x Hx [->|[]%elem_of_nil]%elem_of_cons.
      by apply list_find_None_not_elem in Hnone.
    + apply NoDup_singleton.
  - by apply NoDup_fmap_delete.
  - rewrite fmap_alter_same; [done|]. intros x. apply Hg.
  - apply NoDup_fmap_delete. rewrite fmap_alter_same; [done|]. intros x. apply Hg.
Qed.

Lemma u64_incr_no_wrap n : (n + 1 < 2 ^ 64)%N → u64_incr n = (n + 1)%N.
Proof. intros Hlt. unfold u64_incr. by apply N.mod_small. Qed.

Lemma issued_alter (g : Breakpoint → Breakpoint) (it : nat)
  (l : list Breakpoint) (n : N) :
  (∀ bp, bp_id (g bp) = bp_id bp ∧ bp_nodeId (g bp) = bp_nodeId bp) →
  (∀ bp, bp ∈ l → ∃ k, (k < n)%N ∧ bp_id bp = "bp_" +:+ pretty k) →
  ∀ bp, bp ∈ alter g it l → ∃ k, (k < n)%N ∧ bp_id bp = "bp_" +:+ pretty k.
Proof.
  intros Hg Hl bp (j & Hj)%list_elem_of_lookup.
  rewrite list_lookup_alter in Hj. case_decide as Hij.
  - subst j. destruct (l !! it) as [b|] eqn:Hb; [|done].
    injection Hj as <-. destruct (Hg b) as [-> _].
    apply Hl. by eapply list_elem_of_lookup_2.
  - apply Hl. by eapply list_elem_of_lookup_2.
Qed.

(** The whole invariant is kept by every step that does not wrap the
    64 bit id counter, and a step advances the counter by at most one. *)
Lemma registry_step_wf r r' :
  registry_step r r' → (r.2 + 1 < 2 ^ 64)%N → registry_wf r →
  registry_wf r' ∧ (r'.2 ≤ r.2 + 1)%N.
Proof.
  intros Hstep Hlt Hwf. split.
  - pose proof (registry_step_nodes _ _ Hstep (wf_nodes _ Hwf)) as Hnodes.
    split; [done| |]; destruct Hwf as [_ Hids Hissued];
      destruct Hstep as [l n|l n|l n nodeId condition Hnone|l n it|l n it g Hg|l n it g Hg];
      cbn in *.
    + done.
    + constructor.
    + rewrite fmap_app. apply NoDup_app. split; [done|]. split; [|apply NoDup_singleton].
      intros x Hx [->|[]%elem_of_nil]%elem_of_cons.
      apply list_elem_of_fmap in Hx as (b & Hb & Hin).
      destruct (Hissued b Hin) as (k & Hk & Hid).
      cbn in Hb. rewrite Hid in Hb.
      apply (inj (String.app "bp_")), (inj pretty) in Hb. lia.
    + by apply NoDup_fmap_delete.
    + rewrite fmap_alter_same; [done|]. intros x. apply Hg.
    + apply NoDup_fmap_delete. rewrite fmap_alter_same; [done|]. intros x. apply Hg.
    + done.
    + intros bp []%elem_of_nil.
    + rewrite u64_incr_no_wrap by done.
      intros bp [Hin|[->|[]%elem_of_nil]%elem_of_cons]%elem_of_app.
      * destruct (Hissued bp Hin) as (k & Hk & Hid). exists k. split; [lia|done].
      * exists n. split; [lia|done].
    + intros bp Hin%list_elem_of_delete_inv. by apply Hissued.
    + by apply issued_alter.
    + intros bp Hin%list_elem_of_delete_inv. revert bp Hin. by apply issued_alter.
  - destruct Hstep; cbn in *; try lia.
    rewrite u64_incr_no_wrap by done. lia.
Qed.

Lemma run_snoc cs c s : run (cs ++ [c]) s = exec c (run cs s).
Proof. unfold run. by rewrite foldl_app. Qed.

(** An invariant of every command holds in every reachable state. *)
Lemma reachable_ind (P : PlayModeController → Prop) :
  P PlayModeController_new →
  (∀ c s, P s → P (exec c s)) →
  ∀ s, reachable s → P s.
Proof.
  intros Hnew Hexec s [cs ->].
  induction cs as [|c cs IH] using rev_ind; [done|].
  rewrite run_snoc. by apply Hexec.
Qed.

(** In every reachable state no two breakpoints target the same node. *)
Lemma reachable_one_breakpoint_per_node s :
  reachable s → NoDup (bp_nodeId <$> m_breakpoints s).
Proof.
  revert s. apply reachable_ind; [constructor|].
  intros c s. apply (registry_step_nodes _ _ (exec_registry_step c s)).
Qed.

(** The registry is well formed in every state reached by fewer commands
    than it takes to exhaust the 64 bit id counter. *)
Lemma run_registry_wf cs :
  (N.of_nat (length cs) + 2 < 2 ^ 64)%N →
  registry_wf (registry (run cs PlayModeController_new))
  ∧ (m_nextBreakpointId (run cs PlayModeController_new) ≤ N.of_nat (length cs) + 1)%N.
Proof.
  induction cs as [|c cs IH] using rev_ind; intros Hlen.
  - split; [|cbn; lia]. split; cbn; [constructor|constructor|].
    intros bp []%elem_of_nil.
  - rewrite length_app in *. cbn [length] in *.
    destruct IH as [Hwf Hnext]; [lia|].
    rewrite run_snoc.
    destruct (registry_step_wf _ _
                (exec_registry_step c (run cs PlayModeController_new)))
      as [Hwf' Hnext']; [cbn; lia|done|].
    cbn in Hnext'. split; [done|lia].
Qed.

End RegistryInvariants.

(** ** The play-mode state machine *)

Section StateMachine.

Context `{!TimelinePlaybackEngine}.

Lemma exec_atBreakpoint_inv c s :
  atBreakpoint_inv s → atBreakpoint_inv (exec c s).
Proof.
  unfold atBreakpoint_inv. intros Hinv.
  exec_cases c s; ctl_run;
    match goal with
    | Hi : ?b = true → _ |- _ =>
        destruct b; try (specialize (Hi eq_refl)); try done
    end; ctl_cases.
Qed.

(** C5. [m_atBreakpoint] implies [m_state == Paused] in every state a
    caller can observe between two public calls, and every public
    operation keeps the implication, from whatever state satisfies it. *)
Theorem atBreakpoint_only_while_Paused :
  (∀ s, reachable s → m_atBreakpoint s = true → m_state s = Paused)
  ∧ (∀ c s, (m_atBreakpoint s = true → m_state s = Paused) →
       m_atBreakpoint (exec c s) = true → m_state (exec c s) = Paused).
Proof.
  split.
  - apply (reachable_ind atBreakpoint_inv); [done|].
    apply exec_atBreakpoint_inv.
  - apply exec_atBreakpoint_inv.
Qed.

(** C4 (amended). From a pause at a breakpoint, the public commands that
    bring the controller back to [Playing] are exactly
    [continueExecution], [togglePlayPause] (which dispatches to it) and
    [restart] (which clears the flag itself and resumes). [resume] is
    rejected: it changes nothing. The commands that leave the controller
    [Stopped] are exactly [stop] and [shutdown], and every other command
    leaves it [Paused]. *)
Theorem exits_of_breakpoint_pause c s :
  m_state s = Paused → m_atBreakpoint s = true →
  (m_state (exec c s) = Playing
   ↔ c = Call_continueExecution ∨ c = Call_togglePlayPause ∨ c = Call_restart)
  ∧ resume s = s
  ∧ (m_state (exec c s) = Playing ∨ m_state (exec c s) = Paused
     ∨ m_state (exec c s) = Stopped)
  ∧ (m_state (exec c s) = Stopped ↔ c = Call_stop ∨ c = Call_shutdown)
  ∧ (c ≠ Call_continueExecution → c ≠ Call_togglePlayPause →
     c ≠ Call_restart → c ≠ Call_stop → c ≠ Call_shutdown →
     m_state (exec c s) = Paused).
Proof.
  intros Hst Hbp.
  assert (resume s = s) as Hres.
  { unfold resume. rewrite Hbp. by case_decide. }
  split; [|split; [done|split; [|split]]]; clear Hres.
  - exec_cases c s; ctl_run; try done; subst; ctl_cases;
      (split; [first [done | intros _; auto]
              | first [done | intros [?|[?|?]]; done]]).
  - exec_cases c s; ctl_run; try done; subst; ctl_cases; auto.
  - exec_cases c s; ctl_run; try done; subst; ctl_cases;
      (split; [first [done | intros _; auto]
              | first [done | intros [?|?]; done]]).
  - exec_cases c s; ctl_run; try done; subst; ctl_cases;
      first [done | intros; congruence].
Qed.

End StateMachine.

(** ** A breakpoint hit *)

Section BreakpointHit.

Context `{!TimelinePlaybackEngine}.

(** With distinct keys, the first entry found by key is the entry. *)
Lemma list_find_unique {A B} `{EqDecision B} (f : A → B) (l : list A) (x : A) :
  NoDup (f <$> l) → x ∈ l →
  ∃ it, l !! it = Some x ∧ list_find (λ y, f y = f x) l = Some (it, x).
Proof.
  intros Hnd (it & Hit)%list_elem_of_lookup. exists it. split; [done|].
  apply list_find_Some. split; [done|]. split; [done|].
  intros j y Hj Hlt Heq.
  assert (j = it); [|lia].
  apply (NoDup_lookup (f <$> l) j it (f x) Hnd); rewrite list_lookup_fmap.
  - by rewrite Hj, <- Heq.
  - by rewrite Hit.
Qed.

Lemma list_delete_alter {A} (g : A → A) (it : nat) (l : list A) :
  delete it (alter g it l) = delete it l.
Proof.
  revert it. induction l as [|x l IH]; intros [|it]; cbn; [done..|].
  f_equal. apply IH.
Qed.

(** With distinct keys, erasing an entry erases its key. *)
Lemma key_not_in_delete {A B} (f : A → B) (l : list A) (it : nat) (x : A) :
  NoDup (f <$> l) → l !! it = Some x → f x ∉ f <$> delete it l.
Proof.
  intros Hnd Hit Hin.
  pose proof (delete_Permutation l it x Hit) as Hperm.
  apply (fmap_Permutation f) in Hperm. rewrite Hperm in Hnd. cbn in Hnd. by apply NoDup_cons in Hnd as [Hnot _].
Qed.

Lemma u32_incr_changes n : u32_incr n ≠ n.
Proof.
  unfold u32_incr. intros Heq.
  assert (1 < 2 ^ 32)%N as Hm by done.
  pose proof (N.mod_upper_bound (n + 1) (2 ^ 32)%N) as Hub.
  remember (2 ^ 32)%N as m eqn:Em. clear Em.
  destruct (decide (n + 1 < m)%N) as [Hlt|Hge].
  - rewrite N.mod_small in Heq by done. lia.
  - rewrite Heq in Hub. assert (n + 1 = m)%N as Hn by lia.
    rewrite Hn, N.Div0.mod_same in Heq. lia.
Qed.

Lemma update_at_breakpoint deltaTime s bp :
  m_state s = Playing →
  enableBreakpoints (m_config s) = true →
  m_currentNodeId s ≠ "" →
  registry_wf (registry s) →
  bp ∈ m_breakpoints s →
  bp_nodeId bp = m_currentNodeId s →
  bp_enabled bp = true →
  ∃ it, m_breakpoints s !! it = Some bp
    ∧ update deltaTime s =
        notifyBreakpointHit bp (pause (hit_registered deltaTime it bp s)).
Proof.
  intros Hst Hen Hnode [Hnodes Hids _] Hin Hbp Henabled. cbn in Hnodes, Hids.
  destruct (list_find_unique bp_nodeId _ _ Hnodes Hin) as (it & Hit & Hfind).
  destruct (list_find_unique bp_id _ _ Hids Hin) as (it' & Hit' & Hfind').
  assert (it' = it) as ->.
  { apply (NoDup_lookup (bp_id <$> m_breakpoints s) it' it (bp_id bp) Hids);
      rewrite list_lookup_fmap; [by rewrite Hit'|by rewrite Hit]. }
  exists it. split; [done|].
  rewrite update_unfold. rewrite decide_False by (by intros []).
  rewrite Hen, bool_decide_true by done. cbn [andb].
  unfold getBreakpointForNode at 1. rewrite <- Hbp, Hfind, Henabled.
  cbv zeta. unfold hit_registered, update_hit.
  destruct (updateStats_shape (deltaTime * timeScale (m_config s))%float s)
    as (st & l & a & c & ->).
  destruct s. ctl_eval. rewrite Hfind'.
  destruct (bp_hitOnce bp); [|done].
  by rewrite list_delete_alter.
Qed.

(** The statements of [update] on a breakpoint hit: everything up to the
    controller [pause] is called on runs while [Playing]; [pause] and
    [notifyBreakpointHit] are the last two. *)
Lemma update_states_at_breakpoint deltaTime s bp :
  m_state s = Playing →
  enableBreakpoints (m_config s) = true →
  m_currentNodeId s ≠ "" →
  registry_wf (registry s) →
  bp ∈ m_breakpoints s →
  bp_nodeId bp = m_currentNodeId s →
  bp_enabled bp = true →
  ∃ it before,
    m_breakpoints s !! it = Some bp
    ∧ update_states deltaTime s
      = before
        ++ [hit_registered deltaTime it bp s;
            pause (hit_registered deltaTime it bp s);
            notifyBreakpointHit bp (pause (hit_registered deltaTime it bp s))]
    ∧ Forall (λ s', m_state s' = Playing) before.
Proof.
  intros Hst Hen Hnode [Hnodes Hids _] Hin Hbp Henabled. cbn in Hnodes, Hids.
  destruct (list_find_unique bp_nodeId _ _ Hnodes Hin) as (it & Hit & Hfind).
  destruct (list_find_unique bp_id _ _ Hids Hin) as (it' & Hit' & Hfind').
  assert (it' = it) as ->.
  { apply (NoDup_lookup (bp_id <$> m_breakpoints s) it' it (bp_id bp) Hids);
      rewrite list_lookup_fmap; [by rewrite Hit'|by rewrite Hit]. }
  exists it.
  unfold update_states. rewrite decide_False by (by intros []).
  cbv zeta. unfold hit_registered.
  destruct (updateStats_shape (deltaTime * timeScale (m_config s))%float s)
    as (st & l & a & c & ->).
  destruct s as [[] ? cfg ? ? bps ? ? ? ? node ? ? ? ? ? ? ?]; try done.
  unfold getBreakpointForNode. ctl_eval.
  rewrite Hen, bool_decide_true by done. cbn [andb].
  rewrite <- Hbp, Hfind, Henabled, Hfind'. ctl_eval.
  destruct (bp_hitOnce bp) eqn:Honce; cbn [last default app].
  - rewrite list_delete_alter. eexists [_; _; _; _; _].
    split; [done|]. split; [reflexivity|].
    repeat constructor.
  - eexists [_; _; _; _].
    split; [done|]. split; [reflexivity|].
    repeat constructor.
Qed.

(** Registering the hit changes the registry: the erased entry is missing,
    or the count of the entry has moved. *)
Lemma hit_registered_changes_registry deltaTime s bp it :
  m_breakpoints s !! it = Some bp →
  m_breakpoints (hit_registered deltaTime it bp s) ≠ m_breakpoints s.
Proof.
  intros Hit. unfold hit_registered. cbv zeta.
  destruct (updateStats_shape (deltaTime * timeScale (m_config s))%float s)
    as (st & l & a & c & ->).
  destruct s as [? ? ? ? ? bps ? ? ? ? ? ? ? ? ? ? ? ?]. ctl_eval.
  destruct (bp_hitOnce bp); intros Heq.
  - apply (f_equal length) in Heq.
    pose proof (lookup_lt_Some _ _ _ Hit) as Hlt.
    rewrite length_delete in Heq by done. lia.
  - apply (f_equal (λ l, l !! it)) in Heq. cbn beta in Heq.
    rewrite list_lookup_alter_eq, Hit in Heq. cbn in Heq.
    injection Heq as Heq. apply (f_equal bp_hitCount) in Heq.
    by apply u32_incr_changes in Heq.
Qed.

Lemma find_node_after_hit (l : list Breakpoint) (it : nat) (bp : Breakpoint) :
  NoDup (bp_nodeId <$> l) → l !! it = Some bp →
  list_find (λ b, bp_nodeId b = bp_nodeId bp) (alter Breakpoint_hit it l)
  = Some (it, Breakpoint_hit bp).
Proof.
  intros Hnd Hit.
  assert (alter Breakpoint_hit it l !! it = Some (Breakpoint_hit bp)) as Hit'.
  { by rewrite list_lookup_alter_eq, Hit. }
  assert (NoDup (bp_nodeId <$> alter Breakpoint_hit it l)) as Hnd'.
  { by rewrite fmap_alter_same. }
  destruct (list_find_unique bp_nodeId _ (Breakpoint_hit bp) Hnd')
    as (it' & Hit'' & Hfind); [by eapply list_elem_of_lookup_2|].
  assert (it' = it) as ->; [|done].
  apply (NoDup_lookup _ it' it (bp_nodeId bp) Hnd'); rewrite list_lookup_fmap.
  - by rewrite Hit''.
  - by rewrite Hit'.
Qed.

Lemma find_node_after_erase (l : list Breakpoint) (it : nat) (bp : Breakpoint) :
  NoDup (bp_nodeId <$> l) → l !! it = Some bp →
  list_find (λ b, bp_nodeId b = bp_nodeId bp) (delete it l) = None.
Proof.
  intros Hnd Hit. apply list_find_None, Forall_forall. intros b Hb Heq.
  apply (key_not_in_delete bp_nodeId l it bp Hnd Hit).
  rewrite <- Heq. by apply list_elem_of_fmap_2.
Qed.

(** C1. With the controller [Playing], breakpoints enabled in the active
    configuration, a current node set and an enabled breakpoint [bp] of a
    well-formed registry on that node, [update] raises [m_atBreakpoint],
    counts the hit on [bp] (1 after the first hit), erases [bp] when it
    is [hitOnce] and ends [Paused].

    The count and the erasure come before the pause transition. The order
    of two statements that write different members cannot be read off the
    controller [update] returns, so it is stated on [update_states], the
    controllers after each statement: the statements of the frame run
    [before] the controller [hit_registered], all in state [Playing];
    [hit_registered] is itself still [Playing], has the flag up and holds
    the final registry, which differs from the registry the frame started
    with; [pause] is the next statement and makes it [Paused], and
    [notifyBreakpointHit] is the last. *)
Theorem update_pauses_at_enabled_breakpoint deltaTime s bp :
  m_state s = Playing →
  enableBreakpoints (m_config s) = true →
  m_currentNodeId s ≠ "" →
  registry_wf (registry s) →
  bp ∈ m_breakpoints s →
  bp_nodeId bp = m_currentNodeId s →
  bp_enabled bp = true →
  ∃ it, m_breakpoints s !! it = Some bp
    ∧ m_atBreakpoint (update deltaTime s) = true
    ∧ m_currentBreakpointId (update deltaTime s) = bp_id bp
    ∧ m_state (update deltaTime s) = Paused
    ∧ m_breakpoints (update deltaTime s)
      = (if bp_hitOnce bp then delete it (m_breakpoints s)
         else alter Breakpoint_hit it (m_breakpoints s))
    ∧ getBreakpointForNode (bp_nodeId bp) (update deltaTime s)
      = (if bp_hitOnce bp then None else Some (Breakpoint_hit bp))
    ∧ (bp_hitOnce bp = true → bp_id bp ∉ bp_id <$> m_breakpoints (update deltaTime s))
    ∧ bp_hitCount (Breakpoint_hit bp) = u32_incr (bp_hitCount bp)
    ∧ (bp_hitCount bp = 0%N → bp_hitCount (Breakpoint_hit bp) = 1%N)
    ∧ update deltaTime s
      = notifyBreakpointHit bp (pause (hit_registered deltaTime it bp s))
    ∧ m_state (hit_registered deltaTime it bp s) = Playing
    ∧ m_breakpoints (hit_registered deltaTime it bp s)
      = m_breakpoints (update deltaTime s)
    ∧ m_atBreakpoint (hit_registered deltaTime it bp s) = true
    ∧ m_state (pause (hit_registered deltaTime it bp s)) = Paused
    ∧ m_breakpoints (hit_registered deltaTime it bp s) ≠ m_breakpoints s
    ∧ ∃ before,
        update_states deltaTime s
        = before
          ++ [hit_registered deltaTime it bp s;
              pause (hit_registered deltaTime it bp s);
              notifyBreakpointHit bp (pause (hit_registered deltaTime it bp s))]
        ∧ Forall (λ s', m_state s' = Playing) before.
Proof.
  intros Hst Hen Hnode Hwf Hin Hbp Henabled.
  destruct (update_states_at_breakpoint deltaTime s bp)
    as (it & before & Hit & Htrace & Hbefore); [done..|].
  exists it. split; [done|].
  assert (update deltaTime s
          = notifyBreakpointHit bp (pause (hit_registered deltaTime it bp s)))
    as Hupd.
  { unfold update. by rewrite Htrace, last_app. }
  pose proof (hit_registered_changes_registry deltaTime s bp it Hit) as Hchanged.
  assert (∃ before,
            update_states deltaTime s
            = before
              ++ [hit_registered deltaTime it bp s;
                  pause (hit_registered deltaTime it bp s);
                  notifyBreakpointHit bp
                    (pause (hit_registered deltaTime it bp s))]
            ∧ Forall (λ s', m_state s' = Playing) before) as Hstates
    by (by exists before).
  clear Htrace Hbefore.
  rewrite Hupd. clear Hupd.
  revert Hchanged Hstates.
  generalize (update_states deltaTime s). intros states.
  destruct Hwf as [Hnodes Hids _]. cbn in Hnodes, Hids.
  unfold hit_registered. cbv zeta.
  destruct (updateStats_shape (deltaTime * timeScale (m_config s))%float s)
    as (st & l & a & c & ->).
  destruct s as [[] ? ? ? ? bps ? ? ? ? ? ? ? ? ? ? ? ?]; try done.
  ctl_run. rewrite decide_False by (by intros []). ctl_run.
  intros Hchanged Hstates.
  repeat split; try done.
  - destruct (bp_hitOnce bp).
    + by rewrite find_node_after_erase.
    + by rewrite find_node_after_hit.
  - intros ->. by apply key_not_in_delete.
  - intros Hzero. cbn. by rewrite Hzero.
Qed.

(** C10. On a breakpoint hit, every listener's [onBreakpointHit] receives,
    and the published [BreakpointHitEvent] carries, the copy of the
    breakpoint taken by the lookup before the count was incremented: they
    report the count before this hit (0 on the first hit), whereas the
    registry entry, unless erased as [hitOnce], holds the incremented
    count. *)
Theorem breakpoint_hit_reports_count_before_hit deltaTime s bp :
  m_state s = Playing →
  enableBreakpoints (m_config s) = true →
  m_currentNodeId s ≠ "" →
  registry_wf (registry s) →
  bp ∈ m_breakpoints s →
  bp_nodeId bp = m_currentNodeId s →
  bp_enabled bp = true →
  outbound (update deltaTime s)
  = outbound s
    ++ [Timeline_update (deltaTime * timeScale (m_config s))%float]
    ++ pause_calls (m_listeners s)
    ++ ((λ l, Listener_onBreakpointHit l bp) <$> m_listeners s)
    ++ [EventBus_publish
          (BreakpointHitEvent (bp_id bp) (bp_nodeId bp) (bp_hitCount bp))]
  ∧ (bp_hitOnce bp = false →
     ∃ entry,
       getBreakpointForNode (bp_nodeId bp) (update deltaTime s) = Some entry
       ∧ bp_hitCount entry = u32_incr (bp_hitCount bp)
       ∧ bp_hitCount entry ≠ bp_hitCount bp)
  ∧ (bp_hitCount bp = 0%N → u32_incr (bp_hitCount bp) = 1%N).
Proof.
  intros Hst Hen Hnode Hwf Hin Hbp Henabled.
  destruct (update_at_breakpoint deltaTime s bp) as (it & Hit & Hupd); [done..|].
  rewrite Hupd. clear Hupd.
  destruct Hwf as [Hnodes Hids _]. cbn in Hnodes, Hids.
  unfold hit_registered. cbv zeta.
  destruct (updateStats_shape (deltaTime * timeScale (m_config s))%float s)
    as (st & l & a & c & ->).
  destruct s as [[] ? ? ? ? bps ? ? ? ? ? ? ? ? ? ? ? ?]; try done.
  ctl_run. rewrite decide_False by (by intros []). ctl_run.
  split; [|split].
  - unfold pause_calls. by rewrite <- !(assoc_L (++)).
  - intros ->. exists (Breakpoint_hit bp).
    rewrite find_node_after_hit by done.
    split; [done|]. split; [done|]. apply u32_incr_changes.
  - by intros ->.
Qed.

End BreakpointHit.

(** ** Guards and the end of a session *)

Section Session.

Context `{!TimelinePlaybackEngine}.

(** C7. A play control called in a state where it does not apply changes
    nothing, neither a member of the controller nor the calls made on its
    collaborators: [play] outside [Stopped], [pause] outside [Playing],
    [resume] unless [Paused] with [m_atBreakpoint] false, [stop] when
    [Stopped]. The operations are total functions: nothing is thrown. *)
Theorem play_controls_ignore_misuse (config : PlayModeConfig) (s : PlayModeController) :
  (m_state s ≠ Stopped → play s = s ∧ play_with config s = s)
  ∧ (m_state s ≠ Playing → pause s = s)
  ∧ (¬ (m_state s = Paused ∧ m_atBreakpoint s = false) → resume s = s)
  ∧ (m_state s = Stopped → stop s = s).
Proof.
  split; [|split; [|split]].
  - intros Hst. unfold play, play_with. by rewrite !decide_True.
  - intros Hst. unfold pause. by rewrite decide_True.
  - intros Hst. unfold resume. case_decide; [done|].
    destruct (m_atBreakpoint s) eqn:Hbp; [done|].
    exfalso. apply Hst. split; [|done].
    destruct (m_state s); congruence.
  - intros Hst. unfold stop. by rewrite decide_True.
Qed.

(** C2. On the code the three stepping commands change nothing in any
    state: [stepNext] calls [update] only when the state is [Paused], and
    [update] returns at once unless the state is [Playing]. In the paused
    session [play(); pause()] a step simulates no frame: the frame count
    stays 0 and no call reaches the playback engine, whereas the same
    [update(1/60)] on the resumed session counts one frame. *)
Theorem stepping_never_advances :
  (∀ s, stepNext s = s ∧ stepInto s = s ∧ stepOut s = s)
  ∧ m_state paused_session = Paused
  ∧ frameCount (m_stats (stepNext paused_session)) = 0%N
  ∧ totalPlayTime (m_stats (stepNext paused_session)) = 0%float
  ∧ outbound (stepNext paused_session) = outbound paused_session
  ∧ frameCount (m_stats (update (1 / 60)%float (resume paused_session))) = 1%N.
Proof.
  split.
  - intros s. split; [apply stepNext_id|]. split.
    + apply stepInto_id.
    + apply stepOut_id.
  - rewrite stepNext_id. repeat split; vm_compute; reflexivity.
Qed.

(** C6. [stop] called in play mode leaves no variable, leaves the
    breakpoint registry as it was, so that every lookup by node answers as
    before, and ends [Stopped]. *)
Theorem stop_clears_variables_keeps_breakpoints s :
  isInPlayMode s = true →
  getAllVariables (stop s) = ∅
  ∧ getBreakpoints (stop s) = getBreakpoints s
  ∧ (∀ nodeId, getBreakpointForNode nodeId (stop s) = getBreakpointForNode nodeId s)
  ∧ m_state (stop s) = Stopped.
Proof.
  intros Hin.
  destruct s as [[] ? ? ? [snap|] ? ? ? ? ? ? ? ? ? ? ? ? ?]; try done;
    by ctl_run.
Qed.

(** C3 (amended). [shutdown] empties the breakpoint list and the variable
    table and leaves play mode. The exit path run by [stop] empties the
    variable table and keeps the breakpoint list. A breakpoint can be
    registered in any state, [Stopped] included: registering leaves the
    state alone and the list is not empty afterwards. *)
Theorem shutdown_clears_both_exit_clears_variables s :
  (m_breakpoints (shutdown s) = [] ∧ m_variables (shutdown s) = ∅
   ∧ isInPlayMode (shutdown s) = false)
  ∧ (m_variables (exitPlayMode s) = ∅
     ∧ m_breakpoints (exitPlayMode s) = m_breakpoints s)
  ∧ (m_state s ≠ Stopped →
     m_variables (stop s) = ∅ ∧ m_breakpoints (stop s) = m_breakpoints s)
  ∧ (∀ nodeId condition,
       m_state (addBreakpoint nodeId condition s) = m_state s
       ∧ m_breakpoints (addBreakpoint nodeId condition s) ≠ []).
Proof.
  split; [|split; [|split]].
  - destruct s as [[] ? ? ? [snap|] ? ? ? ? ? ? ? ? ? ? ? ? ?]; by ctl_run.
  - destruct s as [[] ? ? ? [snap|] ? ? ? ? ? ? ? ? ? ? ? ? ?]; by ctl_run.
  - intros Hst.
    destruct s as [[] ? ? ? [snap|] ? ? ? ? ? ? ? ? ? ? ? ? ?]; try done;
      by ctl_run.
  - intros nodeId condition.
    destruct s as [? ? ? ? ? bps ? ? ? ? ? ? ? ? ? ? ? ?]. ctl_run.
    destruct (list_find _ bps) as [[it b]|] eqn:Hfind; ctl_run.
    + split; [done|]. intros ->. done.
    + split; [done|]. by intros [_ ?]%app_eq_nil.
Qed.

End Session.

(** ** Registering breakpoints *)

Section Registration.

Context `{!TimelinePlaybackEngine}.

Lemma list_find_snoc_new {A} (P : A → Prop) `{∀ x, Decision (P x)}
  (l : list A) (x : A) :
  list_find P l = None → P x → list_find P (l ++ [x]) = Some (length l, x).
Proof.
  intros Hnone HP. rewrite list_find_app_r by done.
  cbn. by rewrite decide_True.
Qed.

(** After [addBreakpoint] the node has a breakpoint: the one it had, or
    the new one. *)
Lemma addBreakpoint_lookup nodeId condition s :
  getBreakpointForNode nodeId (addBreakpoint nodeId condition s)
  = match getBreakpointForNode nodeId s with
    | Some bp => Some bp
    | None => Some (new_breakpoint nodeId condition s)
    end.
Proof.
  destruct s as [? ? ? ? ? bps ? ? ? ? ? ? ? ? ? ? ? ?].
  unfold new_breakpoint. ctl_run.
  destruct (list_find _ bps) as [[it b]|] eqn:Hfind; ctl_run.
  - by rewrite Hfind.
  - by rewrite list_find_snoc_new.
Qed.

Lemma addBreakpoint_again nodeId condition1 condition2 s :
  addBreakpoint nodeId condition2 (addBreakpoint nodeId condition1 s)
  = addBreakpoint nodeId condition1 s.
Proof.
  unfold addBreakpoint at 1. rewrite addBreakpoint_lookup.
  by destruct (getBreakpointForNode nodeId s).
Qed.

(** With distinct keys, a key that occurs selects exactly one entry. *)
Lemma filter_key_length {A B} `{EqDecision B} (f : A → B) (y : B) (l : list A) :
  NoDup (f <$> l) → y ∈ f <$> l → length (filter (λ x, f x = y) l) = 1.
Proof.
  induction l as [|x l IH]; [by intros _ ?%elem_of_nil|].
  rewrite fmap_cons. intros [Hx Hnd]%NoDup_cons Hy.
  destruct (decide (f x = y)) as [Heq|Hne].
  - rewrite filter_cons_True by done. cbn. f_equal.
    destruct (filter _ l) as [|z k] eqn:Hf; [done|].
    assert (z ∈ filter (λ x, f x = y) l) as [Hz Hin]%list_elem_of_filter
      by (rewrite Hf; left).
    exfalso. apply Hx. rewrite Heq, <- Hz. by apply list_elem_of_fmap_2.
  - rewrite filter_cons_False by done. apply IH; [done|].
    by apply elem_of_cons in Hy as [?|?].
Qed.

Lemma getBreakpointForNode_elem nodeId s bp :
  getBreakpointForNode nodeId s = Some bp →
  bp ∈ m_breakpoints s ∧ bp_nodeId bp = nodeId.
Proof.
  unfold getBreakpointForNode.
  destruct (list_find _ _) as [[it b]|] eqn:Hfind; [|done].
  intros [= ->]. apply list_find_Some in Hfind as (Hit & Hb & _).
  split; [by eapply list_elem_of_lookup_2|done].
Qed.

(** C9. The second of two [addBreakpoint] calls on one node is rejected
    whatever the conditions: the controller is the one the first call
    left. If the node had no breakpoint, the lookup then answers the
    breakpoint the first call created. In a registry with one breakpoint
    per node, exactly one breakpoint targets the node after the two calls,
    and every reachable registry has at most one breakpoint per node. *)
Theorem addBreakpoint_twice_one_breakpoint nodeId condition1 condition2 s :
  addBreakpoint nodeId condition2 (addBreakpoint nodeId condition1 s)
  = addBreakpoint nodeId condition1 s
  ∧ (getBreakpointForNode nodeId s = None →
     getBreakpointForNode nodeId
       (addBreakpoint nodeId condition2 (addBreakpoint nodeId condition1 s))
     = Some (new_breakpoint nodeId condition1 s))
  ∧ (NoDup (bp_nodeId <$> m_breakpoints s) →
     length (filter (λ bp, bp_nodeId bp = nodeId)
               (m_breakpoints
                  (addBreakpoint nodeId condition2
                     (addBreakpoint nodeId condition1 s)))) = 1)
  ∧ (∀ s', reachable s' → NoDup (bp_nodeId <$> m_breakpoints s')).
Proof.
  rewrite addBreakpoint_again.
  split; [done|]. split; [|split].
  - intros Hnone. by rewrite addBreakpoint_lookup, Hnone.
  - intros Hnd. apply filter_key_length.
    + apply (registry_step_nodes _ _
               (exec_registry_step (Call_addBreakpoint nodeId condition1) s) Hnd).
    + pose proof (addBreakpoint_lookup nodeId condition1 s) as Hlook.
      destruct (getBreakpointForNode nodeId (addBreakpoint nodeId condition1 s))
        as [bp|] eqn:Hget; [|by destruct (getBreakpointForNode nodeId s)].
      apply getBreakpointForNode_elem in Hget as [Hin <-].
      by apply list_elem_of_fmap_2.
  - apply reachable_one_breakpoint_per_node.
Qed.

(** The id the counter issues next is carried by no registered breakpoint. *)
Lemma next_id_fresh (l : list Breakpoint) (n : N) :
  registry_wf (l, n) →
  list_find (λ bp, bp_id bp = "bp_" +:+ pretty n) l = None.
Proof.
  intros [_ _ Hissued]. cbn in Hissued.
  apply list_find_None, Forall_forall. intros bp Hin Heq.
  destruct (Hissued bp Hin) as (k & Hk & Hid). rewrite Hid in Heq.
  apply (inj (String.app "bp_")), (inj pretty) in Heq. lia.
Qed.

(** C8 (amended). In a well-formed registry, toggling a node twice
    restores the set of nodes that carry a breakpoint. The registry itself
    is restored when the node carried none. A breakpoint the node carried
    is erased by the first call, and the second call registers a fresh one
    at the end of the list: new id, empty condition, enabled, hit count 0. *)
Theorem toggleBreakpoint_twice nodeId s :
  registry_wf (registry s) →
  (∀ n, n ∈ bp_nodeId <$> m_breakpoints (toggleBreakpoint nodeId (toggleBreakpoint nodeId s))
        ↔ n ∈ bp_nodeId <$> m_breakpoints s)
  ∧ (getBreakpointForNode nodeId s = None →
     m_breakpoints (toggleBreakpoint nodeId (toggleBreakpoint nodeId s))
     = m_breakpoints s)
  ∧ (∀ bp, getBreakpointForNode nodeId s = Some bp →
     ∃ it, m_breakpoints s !! it = Some bp
       ∧ m_breakpoints (toggleBreakpoint nodeId (toggleBreakpoint nodeId s))
         = delete it (m_breakpoints s) ++ [new_breakpoint nodeId "" s]).
Proof.
  intros Hwf.
  assert (getBreakpointForNode nodeId s = None →
          m_breakpoints (toggleBreakpoint nodeId (toggleBreakpoint nodeId s))
          = m_breakpoints s) as Habsent.
  { intros Hnone. unfold toggleBreakpoint at 2. rewrite Hnone.
    unfold toggleBreakpoint. rewrite addBreakpoint_lookup, Hnone.
    pose proof (next_id_fresh _ _ Hwf) as Hfresh.
    revert Hnone Hfresh. clear Hwf.
    destruct s as [? ? ? ? ? bps next ? ? ? ? ? ? ? ? ? ? ?].
    unfold new_breakpoint. ctl_run. intros Hnone Hfresh.
    destruct (list_find _ bps) as [[it b]|] eqn:Hfind; [done|]. ctl_run.
    rewrite list_find_snoc_new by done. ctl_run.
    by rewrite (delete_middle bps []), app_nil_r. }
  assert (∀ bp, getBreakpointForNode nodeId s = Some bp →
     ∃ it, m_breakpoints s !! it = Some bp
       ∧ m_breakpoints (toggleBreakpoint nodeId (toggleBreakpoint nodeId s))
         = delete it (m_breakpoints s) ++ [new_breakpoint nodeId "" s])
    as Hpresent.
  { intros bp Hsome.
    destruct (getBreakpointForNode_elem _ _ _ Hsome) as [Hin Hbp].
    destruct Hwf as [Hnodes Hids _]. cbn in Hnodes, Hids.
    destruct (list_find_unique bp_id _ _ Hids Hin) as (it & Hit & Hfind).
    exists it. split; [done|].
    pose proof (find_node_after_erase _ _ _ Hnodes Hit) as Hgone.
    rewrite Hbp in Hgone.
    unfold toggleBreakpoint at 2. rewrite Hsome.
    revert Hfind Hgone. clear.
    destruct s as [? ? ? ? ? bps next ? ? ? ? ? ? ? ? ? ? ?].
    unfold new_breakpoint. ctl_run. intros Hfind Hgone.
    rewrite Hfind. ctl_run. by rewrite Hgone. }
  split; [|done].
  intros n. destruct (getBreakpointForNode nodeId s) as [bp|] eqn:Hget.
  - destruct (Hpresent bp eq_refl) as (it & Hit & ->).
    destruct (getBreakpointForNode_elem _ _ _ Hget) as [_ Hbp].
    rewrite (delete_Permutation _ _ _ Hit) at 2.
    rewrite fmap_app, fmap_cons. cbn. rewrite Hbp.
    rewrite elem_of_app, !elem_of_cons, elem_of_nil. tauto.
  - by rewrite Habsent.
Qed.

End Registration.

(** ** The scenarios, checked on the code *)

(** A closed equation is decided by evaluating both sides. *)
Ltac by_eval := vm_compute; reflexivity.

Lemma before_hit_registry : registry before_hit = ([bp_n1], 2%N).
Proof. by_eval. Qed.

Lemma before_hit_registry_wf : registry_wf (registry before_hit).
Proof.
  rewrite before_hit_registry. split; cbn.
  - apply NoDup_singleton.
  - apply NoDup_singleton.
  - intros bp Hin. apply list_elem_of_singleton in Hin. subst bp.
    exists 1%N. split; [done|by_eval].
Qed.

Lemma with_node_1_registry :
  registry with_node_1
  = ([mkBreakpoint "bp_1" "node_1" "points > 10" true false 0%N], 2%N).
Proof. by_eval. Qed.

Lemma with_node_1_registry_wf : registry_wf (registry with_node_1).
Proof.
  rewrite with_node_1_registry. split; cbn.
  - apply NoDup_singleton.
  - apply NoDup_singleton.
  - intros bp Hin. apply list_elem_of_singleton in Hin. subst bp.
    exists 1%N. split; [done|by_eval].
Qed.

Lemma before_hit_ready :
  m_state before_hit = Playing
  ∧ enableBreakpoints (m_config before_hit) = true
  ∧ m_currentNodeId before_hit = "n1"
  ∧ m_breakpoints before_hit = [bp_n1].
Proof. repeat split; by_eval. Qed.

Lemma at_hit_reachable : @reachable Timeline_at_zero at_hit.
Proof.
  exists [Call_addListener 7%N; Call_play; Call_addBreakpoint "n1" "";
          Call_jumpToNode "n1"; Call_update (1 / 60)%float].
  by_eval.
Qed.

Lemma at_hit_paused : m_state at_hit = Paused ∧ m_atBreakpoint at_hit = true.
Proof. split; by_eval. Qed.

(** Scenario of C1: [play(); addBreakpoint("n1"); jumpToNode("n1");
    update(1/60)] ends paused at the breakpoint with hit count 1. *)
Lemma update_pauses_at_enabled_breakpoint_witness :
  (m_state before_hit = Playing
   ∧ enableBreakpoints (m_config before_hit) = true
   ∧ m_currentNodeId before_hit ≠ ""
   ∧ registry_wf (registry before_hit)
   ∧ bp_n1 ∈ m_breakpoints before_hit
   ∧ bp_nodeId bp_n1 = m_currentNodeId before_hit
   ∧ bp_enabled bp_n1 = true)
  ∧ m_state (update (1 / 60)%float before_hit) = Paused
  ∧ m_atBreakpoint (update (1 / 60)%float before_hit) = true
  ∧ getBreakpointForNode (bp_nodeId bp_n1) (update (1 / 60)%float before_hit)
    = Some (Breakpoint_hit bp_n1)
  ∧ bp_hitCount (Breakpoint_hit bp_n1) = 1%N.
Proof.
  destruct before_hit_ready as (Hst & Hen & Hnode & Hbps).
  assert (m_currentNodeId before_hit ≠ "") as Hset by (by rewrite Hnode).
  assert (bp_n1 ∈ m_breakpoints before_hit) as Hin
    by (rewrite Hbps; apply list_elem_of_here).
  assert (bp_nodeId bp_n1 = m_currentNodeId before_hit) as Hbp
    by (by rewrite Hnode).
  destruct (update_pauses_at_enabled_breakpoint (1 / 60)%float before_hit bp_n1
              Hst Hen Hset before_hit_registry_wf Hin Hbp eq_refl)
    as (it & _ & Hflag & _ & Hstate & _ & Hget & _ & _ & Hfirst & _).
  split.
  { exact (conj Hst (conj Hen (conj Hset (conj before_hit_registry_wf
             (conj Hin (conj Hbp eq_refl)))))). }
  split; [exact Hstate|]. split; [exact Hflag|]. split; [exact Hget|].
  exact (Hfirst eq_refl).
Defined.

(** Scenario of C10: the same hit reports count 0 to the listener and on
    the bus while the registry holds 1. *)
Lemma breakpoint_hit_reports_count_before_hit_witness :
  (m_state before_hit = Playing
   ∧ enableBreakpoints (m_config before_hit) = true
   ∧ m_currentNodeId before_hit ≠ ""
   ∧ registry_wf (registry before_hit)
   ∧ bp_n1 ∈ m_breakpoints before_hit
   ∧ bp_nodeId bp_n1 = m_currentNodeId before_hit
   ∧ bp_enabled bp_n1 = true)
  ∧ outbound (update (1 / 60)%float before_hit)
    = outbound before_hit
      ++ [Timeline_update (1 / 60 * timeScale (m_config before_hit))%float]
      ++ pause_calls (m_listeners before_hit)
      ++ ((λ l, Listener_onBreakpointHit l bp_n1) <$> m_listeners before_hit)
      ++ [EventBus_publish
            (BreakpointHitEvent (bp_id bp_n1) (bp_nodeId bp_n1) (bp_hitCount bp_n1))]
  ∧ bp_hitCount bp_n1 = 0%N
  ∧ m_listeners before_hit = [7%N].
Proof.
  destruct before_hit_ready as (Hst & Hen & Hnode & Hbps).
  assert (m_currentNodeId before_hit ≠ "") as Hset by (by rewrite Hnode).
  assert (bp_n1 ∈ m_breakpoints before_hit) as Hin
    by (rewrite Hbps; apply list_elem_of_here).
  assert (bp_nodeId bp_n1 = m_currentNodeId before_hit) as Hbp
    by (by rewrite Hnode).
  destruct (breakpoint_hit_reports_count_before_hit (1 / 60)%float before_hit
              bp_n1 Hst Hen Hset before_hit_registry_wf Hin Hbp eq_refl)
    as (Hout & _).
  split.
  { exact (conj Hst (conj Hen (conj Hset (conj before_hit_registry_wf
             (conj Hin (conj Hbp eq_refl)))))). }
  split; [exact Hout|]. split; [reflexivity|by_eval].
Defined.

(** Scenario of C5: the reachable state [at_hit] has the flag up and is
    paused; [stop] from there lowers the flag. *)
Lemma atBreakpoint_only_while_Paused_witness :
  (@reachable Timeline_at_zero at_hit ∧ m_atBreakpoint at_hit = true)
  ∧ m_state at_hit = Paused
  ∧ (m_atBreakpoint (@exec Timeline_at_zero Call_stop at_hit) = true →
     m_state (@exec Timeline_at_zero Call_stop at_hit) = Paused).
Proof.
  destruct (@atBreakpoint_only_while_Paused Timeline_at_zero) as [Hreach Hstep].
  destruct at_hit_paused as [Hst Hflag].
  split; [split; [exact at_hit_reachable|exact Hflag]|].
  split; [exact (Hreach at_hit at_hit_reachable Hflag)|].
  exact (Hstep Call_stop at_hit (Hreach at_hit at_hit_reachable)).
Defined.

(** C4 as stated fails: from the breakpoint pause of [at_hit], [restart]
    leads to [Playing] too, and so does [togglePlayPause]. *)
Lemma restart_leaves_breakpoint_pause :
  ¬ (∀ c s, m_state s = Paused → m_atBreakpoint s = true →
       m_state (@exec Timeline_at_zero c s) = Playing →
       c = Call_continueExecution).
Proof.
  intros Hall. destruct at_hit_paused as [Hst Hflag].
  assert (m_state (@exec Timeline_at_zero Call_restart at_hit) = Playing)
    as Hplaying by by_eval.
  specialize (Hall Call_restart at_hit Hst Hflag Hplaying).
  discriminate Hall.
Qed.

(** Scenario of the amended C4: [restart], [stop] and [pause] at
    [at_hit]. *)
Lemma exits_of_breakpoint_pause_witness :
  (m_state at_hit = Paused ∧ m_atBreakpoint at_hit = true)
  ∧ m_state (@exec Timeline_at_zero Call_restart at_hit) = Playing
  ∧ resume at_hit = at_hit
  ∧ m_state (@exec Timeline_at_zero Call_stop at_hit) = Stopped
  ∧ m_state (@exec Timeline_at_zero Call_pause at_hit) = Paused.
Proof.
  destruct at_hit_paused as [Hst Hflag].
  destruct (@exits_of_breakpoint_pause Timeline_at_zero Call_restart at_hit
              Hst Hflag) as (Hiff & Hresume & _).
  destruct (@exits_of_breakpoint_pause Timeline_at_zero Call_stop at_hit
              Hst Hflag) as (_ & _ & _ & Hstopped & _).
  destruct (@exits_of_breakpoint_pause Timeline_at_zero Call_pause at_hit
              Hst Hflag) as (_ & _ & _ & _ & Hpaused).
  split; [by split|].
  split; [apply Hiff; right; right; reflexivity|].
  split; [exact Hresume|].
  split; [apply Hstopped; left; reflexivity|].
  apply Hpaused; discriminate.
Defined.

Lemma in_session_facts :
  isInPlayMode in_session = true
  ∧ m_state in_session = Playing
  ∧ getAllVariables in_session !! "points" = Some "12".
Proof. repeat split; by_eval. Qed.

(** Scenario of C6: stopping [in_session]. *)
Lemma stop_clears_variables_keeps_breakpoints_witness :
  isInPlayMode in_session = true
  ∧ getAllVariables in_session !! "points" = Some "12"
  ∧ getAllVariables (stop in_session) = ∅
  ∧ getBreakpoints (stop in_session) = getBreakpoints in_session
  ∧ m_state (stop in_session) = Stopped.
Proof.
  destruct in_session_facts as (Hin & _ & Hvar).
  destruct (stop_clears_variables_keeps_breakpoints in_session Hin)
    as (Hvars & Hbps & _ & Hstate).
  exact (conj Hin (conj Hvar (conj Hvars (conj Hbps Hstate)))).
Defined.

(** C3 as stated fails: [after_session] is reachable and outside play
    mode, yet its breakpoint list is not empty; [stop] did not clear it. *)
Lemma breakpoints_outlive_play_mode :
  ¬ (∀ s, @reachable Timeline_at_zero s →
       m_breakpoints s ≠ [] ∨ m_variables s ≠ ∅ → isInPlayMode s = true).
Proof.
  intros Hall.
  assert (isInPlayMode after_session = false) as Hout by by_eval.
  assert (m_breakpoints after_session
          = [mkBreakpoint "bp_1" "node_1" "points > 10" true false 0%N])
    as Hbps by by_eval.
  rewrite Hall in Hout; [discriminate Hout| |].
  - exists [Call_play; Call_addBreakpoint "node_1" "points > 10"; Call_stop].
    by_eval.
  - left. by rewrite Hbps.
Qed.

(** Scenario of the amended C3: [stop] on [in_session]. *)
Lemma shutdown_clears_both_exit_clears_variables_witness :
  m_state in_session ≠ Stopped
  ∧ m_variables (stop in_session) = ∅
  ∧ m_breakpoints (stop in_session) = m_breakpoints in_session
  ∧ m_breakpoints (shutdown in_session) = [].
Proof.
  destruct in_session_facts as (_ & Hplaying & _).
  assert (m_state in_session ≠ Stopped) as Hst by (by rewrite Hplaying).
  destruct (shutdown_clears_both_exit_clears_variables in_session)
    as ((Hshut & _) & _ & Hstop & _).
  destruct (Hstop Hst) as [Hvars Hbps].
  exact (conj Hst (conj Hvars (conj Hbps Hshut))).
Defined.

(** Scenario of C7: at the breakpoint pause [play], [pause] and [resume]
    do not apply; in the new controller [stop] does not. *)
Lemma play_controls_ignore_misuse_witness :
  (m_state at_hit ≠ Stopped
   ∧ m_state at_hit ≠ Playing
   ∧ ¬ (m_state at_hit = Paused ∧ m_atBreakpoint at_hit = false)
   ∧ m_state PlayModeController_new = Stopped)
  ∧ @play Timeline_at_zero at_hit = at_hit
  ∧ pause at_hit = at_hit
  ∧ resume at_hit = at_hit
  ∧ stop PlayModeController_new = PlayModeController_new.
Proof.
  destruct at_hit_paused as [Hst Hflag].
  assert (m_state at_hit ≠ Stopped) as H1 by (by rewrite Hst).
  assert (m_state at_hit ≠ Playing) as H2 by (by rewrite Hst).
  assert (¬ (m_state at_hit = Paused ∧ m_atBreakpoint at_hit = false)) as H3.
  { intros [_ Hdown]. by rewrite Hflag in Hdown. }
  destruct (@play_controls_ignore_misuse Timeline_at_zero
              PlayModeConfig_default at_hit) as (Hplay & Hpause & Hresume & _).
  destruct (@play_controls_ignore_misuse Timeline_at_zero
              PlayModeConfig_default PlayModeController_new)
    as (_ & _ & _ & Hstop).
  split; [exact (conj H1 (conj H2 (conj H3 eq_refl)))|].
  split; [exact (proj1 (Hplay H1))|].
  split; [exact (Hpause H2)|]. split; [exact (Hresume H3)|].
  exact (Hstop eq_refl).
Defined.

(** C8 as stated fails: in the registry of the test, toggling "node_1"
    twice replaces the conditional breakpoint bp_1 by an unconditional
    bp_2. *)
Lemma toggle_twice_loses_breakpoint :
  ¬ (∀ nodeId s, @reachable Timeline_at_zero s →
       ∀ bp, bp ∈ m_breakpoints (toggleBreakpoint nodeId (toggleBreakpoint nodeId s))
             ↔ bp ∈ m_breakpoints s).
Proof.
  intros Hall.
  assert (@reachable Timeline_at_zero with_node_1) as Hreach.
  { exists [Call_addBreakpoint "node_1" "points > 10"]. by_eval. }
  assert (m_breakpoints with_node_1
          = [mkBreakpoint "bp_1" "node_1" "points > 10" true false 0%N])
    as Hbefore by by_eval.
  assert (m_breakpoints (toggleBreakpoint "node_1" (toggleBreakpoint "node_1" with_node_1))
          = [mkBreakpoint "bp_2" "node_1" "" true false 0%N])
    as Hafter by by_eval.
  destruct (Hall "node_1" with_node_1 Hreach
              (mkBreakpoint "bp_1" "node_1" "points > 10" true false 0%N))
    as [_ Hback].
  rewrite Hbefore, Hafter in Hback.
  specialize (Hback (list_elem_of_here _ _)).
  apply list_elem_of_singleton in Hback. discriminate Hback.
Qed.

(** Scenario of the amended C8: the same two toggles. *)
Lemma toggleBreakpoint_twice_witness :
  registry_wf (registry with_node_1)
  ∧ getBreakpointForNode "node_1" with_node_1
    = Some (mkBreakpoint "bp_1" "node_1" "points > 10" true false 0%N)
  ∧ (∃ it, m_breakpoints with_node_1 !! it
           = Some (mkBreakpoint "bp_1" "node_1" "points > 10" true false 0%N)
     ∧ m_breakpoints (toggleBreakpoint "node_1" (toggleBreakpoint "node_1" with_node_1))
       = delete it (m_breakpoints with_node_1)
         ++ [new_breakpoint "node_1" "" with_node_1]).
Proof.
  assert (getBreakpointForNode "node_1" with_node_1
          = Some (mkBreakpoint "bp_1" "node_1" "points > 10" true false 0%N))
    as Hget by by_eval.
  destruct (toggleBreakpoint_twice "node_1" with_node_1 with_node_1_registry_wf)
    as (_ & _ & Hpresent).
  split; [exact with_node_1_registry_wf|]. split; [exact Hget|].
  exact (Hpresent _ Hget).
Defined.

(** Scenario of C9: two registrations on "n1" in the new controller. *)
Lemma addBreakpoint_twice_one_breakpoint_witness :
  (getBreakpointForNode "n1" PlayModeController_new = None
   ∧ NoDup (bp_nodeId <$> m_breakpoints PlayModeController_new))
  ∧ getBreakpointForNode "n1"
      (addBreakpoint "n1" "b" (addBreakpoint "n1" "a" PlayModeController_new))
    = Some (new_breakpoint "n1" "a" PlayModeController_new)
  ∧ length (filter (λ bp, bp_nodeId bp = "n1")
              (m_breakpoints
                 (addBreakpoint "n1" "b"
                    (addBreakpoint "n1" "a" PlayModeController_new)))) = 1.
Proof.
  destruct (@addBreakpoint_twice_one_breakpoint Timeline_at_zero "n1" "a" "b"
              PlayModeController_new) as (_ & Hget & Hone & _).
  assert (NoDup (bp_nodeId <$> m_breakpoints PlayModeController_new)) as Hnd
    by apply NoDup_nil_2.
  split; [split; [reflexivity|exact Hnd]|].
  split; [exact (Hget eq_refl)|]. exact (Hone Hnd).
Defined.


(** ** Time scale *)

(** The order of binary64 numbers, from the specification of the
    primitive comparisons. *)
Lemma SFcompare_antisym a b :
  SFcompare b a = option_map CompOpp (SFcompare a b).
Proof.
  destruct a as [s1|s1| |s1 m1 e1], b as [s2|s2| |s2 m2 e2]; cbn;
    try destruct s1; try destruct s2; try reflexivity.
  all: rewrite (Z.compare_antisym e1 e2).
  all: replace (Pos.compare_cont Eq m2 m1)
         with (CompOpp (Pos.compare_cont Eq m1 m2))
         by apply Pos.compare_cont_antisym.
  all: destruct (e1 ?= e2)%Z; cbn; try reflexivity.
  all: by destruct (Pos.compare_cont Eq m1 m2).
Qed.

Lemma f64_ltb_irrefl (x : f64) : (x <? x)%float = false.
Proof.
  rewrite ltb_spec. unfold SFltb.
  pose proof (SFcompare_antisym (Prim2SF x) (Prim2SF x)) as H.
  destruct (SFcompare (Prim2SF x) (Prim2SF x)) as [[]|]; cbn in H; congruence.
Qed.

Lemma f64_ltb_leb (x y : f64) : (x <? y)%float = true → (x <=? y)%float = true.
Proof.
  rewrite ltb_spec, leb_spec. unfold SFltb, SFleb.
  by destruct (SFcompare _ _) as [[]|].
Qed.

(** Among numbers, not below means at most: [x] is a number because
    something is below it, [y] because it equals itself. *)
Lemma f64_not_ltb_leb (x y z : f64) :
  (z <? x)%float = true → (y =? y)%float = true → (y <? x)%float = false →
  (x <=? y)%float = true.
Proof.
  rewrite !ltb_spec, leb_spec, FloatAxioms.eqb_spec. unfold SFltb, SFleb, SFeqb.
  rewrite (SFcompare_antisym (Prim2SF y) (Prim2SF x)).
  generalize (Prim2SF x) (Prim2SF y) (Prim2SF z). clear. intros a b c Hc Hb.
  assert (SFcompare b a ≠ None) as Hab.
  { destruct a, b; cbn in *; try done. all: destruct c; done. }
  destruct (SFcompare b a) as [[]|]; done.
Qed.

Lemma f64_leb_not_ltb (x y : f64) :
  (x <=? y)%float = true → (y <? x)%float = false.
Proof.
  rewrite ltb_spec, leb_spec. unfold SFltb, SFleb.
  rewrite (SFcompare_antisym (Prim2SF x) (Prim2SF y)).
  by destruct (SFcompare _ _) as [[]|].
Qed.

Lemma f64_not_positive_not_above_ten (x : f64) :
  (0 <? x)%float = false → (10 <? x)%float = false.
Proof.
  rewrite !ltb_spec. unfold SFltb.
  replace (Prim2SF 0) with (S754_zero false) by (vm_compute; reflexivity).
  replace (Prim2SF 10) with (S754_finite false 5629499534213120 (-49))
    by (vm_compute; reflexivity).
  destruct (Prim2SF x) as [s|s| |s m e]; cbn; try done; by destruct s.
Qed.

Section TimeScale.

(** X1. Whatever [scale] is, infinities and NaN included, [setTimeScale]
    leaves a time scale between 0 and 10: a scale in (0, 10] is kept, a
    larger one becomes 10, and everything else, NaN included, becomes 0.
    The clamped value is pushed to the playback engine in play mode and
    to nobody otherwise; the state is left alone. *)
Theorem setTimeScale_clamps (scale : f64) (s : PlayModeController) :
  (0 <=? timeScale (m_config (setTimeScale scale s)))%float = true
  ∧ (timeScale (m_config (setTimeScale scale s)) <=? 10)%float = true
  ∧ ((0 <? scale)%float = true → (scale <=? 10)%float = true →
     timeScale (m_config (setTimeScale scale s)) = scale)
  ∧ ((10 <? scale)%float = true →
     timeScale (m_config (setTimeScale scale s)) = 10%float)
  ∧ ((0 <? scale)%float = false →
     timeScale (m_config (setTimeScale scale s)) = 0%float)
  ∧ outbound (setTimeScale scale s)
    = (if isInPlayMode s
       then outbound s
            ++ [Timeline_setSpeed (timeScale (m_config (setTimeScale scale s)))]
       else outbound s)
  ∧ m_state (setTimeScale scale s) = m_state s.
Proof.
  assert (timeScale (m_config (setTimeScale scale s))
          = std_max 0%float (std_min scale 10%float)) as Hts.
  { destruct s as [[] ? ? ? ? ? ? ? ? ? ? ? ? ? ? ? ? ?]; unfold setTimeScale;
      ctl_cases. }
  rewrite !Hts.
  assert ((10 <? scale)%float = false → (0 <? scale)%float = true →
          std_max 0%float (std_min scale 10%float) = scale) as Hmid.
  { intros H10 H0. unfold std_min, std_max. by rewrite H10, H0. }
  assert ((10 <? scale)%float = true →
          std_max 0%float (std_min scale 10%float) = 10%float) as Hhigh.
  { intros H10. unfold std_min. rewrite H10. by_eval. }
  assert ((0 <? scale)%float = false →
          std_max 0%float (std_min scale 10%float) = 0%float) as Hlow.
  { intros H0. unfold std_min, std_max.
    by rewrite (f64_not_positive_not_above_ten scale H0), H0. }
  assert ((0 <=? 0)%float = true ∧ (0 <=? 10)%float = true
          ∧ (10 <=? 10)%float = true ∧ (10 =? 10)%float = true)
    as (H00 & H010 & H1010 & Hten) by (repeat split; by_eval).
  split; [|split; [|split; [|split; [|split; [|split]]]]].
  - destruct (10 <? scale)%float eqn:H10; [by rewrite Hhigh|].
    destruct (0 <? scale)%float eqn:H0; [|by rewrite Hlow].
    rewrite Hmid by done. by apply f64_ltb_leb.
  - destruct (10 <? scale)%float eqn:H10; [by rewrite Hhigh|].
    destruct (0 <? scale)%float eqn:H0; [|by rewrite Hlow].
    rewrite Hmid by done. by apply (f64_not_ltb_leb scale 10%float 0%float).
  - intros H0 H10. apply Hmid; [|done]. by apply f64_leb_not_ltb.
  - done.
  - done.
  - destruct s as [[] ? ? ? ? ? ? ? ? ? ? ? ? ? ? ? ? ?]; unfold setTimeScale;
      ctl_cases.
  - destruct s as [[] ? ? ? ? ? ? ? ? ? ? ? ? ? ? ? ? ?]; unfold setTimeScale;
      ctl_cases.
Qed.

End TimeScale.


(** ** Frame statistics *)

Section Statistics.

(** X2. [updateStats] counts the frame and adds its time to the total;
    afterwards the frame's time is neither below the recorded minimum nor
    above the recorded maximum, and the one-second accumulator is below
    one: when it reaches one second the average is recomputed from the
    frames counted since the last reset and both accumulators restart. The
    error and warning counters are left alone. *)
Theorem updateStats_brackets_and_resets (deltaTime : f64) (s : PlayModeController) :
  frameCount (m_stats (updateStats deltaTime s)) = u32_incr (frameCount (m_stats s))
  ∧ totalPlayTime (m_stats (updateStats deltaTime s))
    = (totalPlayTime (m_stats s) + deltaTime)%float
  ∧ m_lastFrameTime (updateStats deltaTime s) = deltaTime
  ∧ (deltaTime <? minFrameTime (m_stats (updateStats deltaTime s)))%float = false
  ∧ (maxFrameTime (m_stats (updateStats deltaTime s)) <? deltaTime)%float = false
  ∧ (1 <=? m_frameTimeAccumulator (updateStats deltaTime s))%float = false
  ∧ (if (1 <=? m_frameTimeAccumulator s + deltaTime)%float
     then averageFps (m_stats (updateStats deltaTime s))
          = (f64_of_u32 (u32_incr (m_frameTimeCount s))
             / (m_frameTimeAccumulator s + deltaTime))%float
          ∧ m_frameTimeAccumulator (updateStats deltaTime s) = 0%float
          ∧ m_frameTimeCount (updateStats deltaTime s) = 0%N
     else averageFps (m_stats (updateStats deltaTime s)) = averageFps (m_stats s)
          ∧ m_frameTimeAccumulator (updateStats deltaTime s)
            = (m_frameTimeAccumulator s + deltaTime)%float
          ∧ m_frameTimeCount (updateStats deltaTime s)
            = u32_incr (m_frameTimeCount s))
  ∧ scriptErrorCount (m_stats (updateStats deltaTime s)) = scriptErrorCount (m_stats s)
  ∧ warningCount (m_stats (updateStats deltaTime s)) = warningCount (m_stats s).
Proof.
  pose proof (f64_ltb_irrefl deltaTime) as Hirr.
  assert ((1 <=? 0)%float = false) as Hzero by by_eval.
  destruct s as [? ? ? [tp fc af mn mx se wc vn nv] ? ? ? ? ? ? ? ? ? ? ? ? ? ?].
  unfold updateStats.
  repeat (ctl_eval;
          cbv beta iota zeta delta
            [totalPlayTime frameCount averageFps minFrameTime maxFrameTime
             scriptErrorCount warningCount visitedNodes nodeVisitCounts];
          try ctl_case_step).
  all: repeat split; try done.
  all: by match goal with
          | H : _ || _ = false |- _ => apply orb_false_elim in H as [_ ?]
          end.
Qed.

End Statistics.


(** ** Frames that hit no breakpoint, and editing the registry *)

Section Frames.

Context `{!TimelinePlaybackEngine}.

Lemma update_no_hit (deltaTime : f64) (s : PlayModeController) :
  m_state s = Playing →
  enableBreakpoints (m_config s) = false
  ∨ m_currentNodeId s = ""
  ∨ getBreakpointForNode (m_currentNodeId s) s = None
  ∨ (∃ bp, getBreakpointForNode (m_currentNodeId s) s = Some bp
           ∧ bp_enabled bp = false) →
  update deltaTime s
  = emit (Timeline_update (deltaTime * timeScale (m_config s))%float)
      (updateStats (deltaTime * timeScale (m_config s))%float s).
Proof.
  intros Hst Hno.
  rewrite update_unfold. rewrite decide_False by (by rewrite Hst; intros []).
  cbv zeta. destruct Hno as [Hen|[Hnode|[Hnone|(bp & Hsome & Hdis)]]].
  - by rewrite Hen.
  - rewrite Hnode, bool_decide_false by (by intros []).
    by rewrite andb_false_r.
  - rewrite Hnone. by destruct (_ && _).
  - rewrite Hsome, Hdis. by destruct (_ && _).
Qed.

Lemma updateStats_frameCount (deltaTime : f64) (s : PlayModeController) :
  frameCount (m_stats (updateStats deltaTime s)) = u32_incr (frameCount (m_stats s)).
Proof.
  destruct s as [? ? ? [tp fc af mn mx se wc vn nv] ? ? ? ? ? ? ? ? ? ? ? ? ? ?].
  unfold updateStats.
  repeat (ctl_eval;
          cbv beta iota zeta delta
            [totalPlayTime frameCount averageFps minFrameTime maxFrameTime
             scriptErrorCount warningCount visitedNodes nodeVisitCounts];
          try ctl_case_step); done.
Qed.

(** X3. A frame in which no breakpoint is hit: breakpoints are disabled in
    the active configuration, or no current node is set, or the first
    breakpoint registered on the current node is missing or disabled. The
    controller stays [Playing], the flag and the registry are untouched,
    the statistics count the frame with the scaled time, and the playback
    engine receives exactly one call: [update] with [deltaTime * timeScale]. *)
Theorem update_without_hit (deltaTime : f64) (s : PlayModeController) :
  m_state s = Playing →
  enableBreakpoints (m_config s) = false
  ∨ m_currentNodeId s = ""
  ∨ getBreakpointForNode (m_currentNodeId s) s = None
  ∨ (∃ bp, getBreakpointForNode (m_currentNodeId s) s = Some bp
           ∧ bp_enabled bp = false) →
  update deltaTime s
  = emit (Timeline_update (deltaTime * timeScale (m_config s))%float)
      (updateStats (deltaTime * timeScale (m_config s))%float s)
  ∧ m_state (update deltaTime s) = Playing
  ∧ m_atBreakpoint (update deltaTime s) = m_atBreakpoint s
  ∧ m_breakpoints (update deltaTime s) = m_breakpoints s
  ∧ outbound (update deltaTime s)
    = outbound s ++ [Timeline_update (deltaTime * timeScale (m_config s))%float]
  ∧ frameCount (m_stats (update deltaTime s)) = u32_incr (frameCount (m_stats s)).
Proof.
  intros Hst Hno. rewrite (update_no_hit deltaTime s Hst Hno).
  split; [done|].
  pose proof (updateStats_frameCount
                (deltaTime * timeScale (m_config s))%float s) as Hfc.
  destruct (updateStats_shape (deltaTime * timeScale (m_config s))%float s)
    as (st & l & a & c & Heq).
  rewrite Heq in *. destruct s. ctl_eval. by rewrite Hfc.
Qed.

(** Erasing or rewriting an entry the predicate rejects does not change
    the first entry the predicate accepts. *)
Lemma list_find_delete_other {A} (P : A → Prop) `{∀ x, Decision (P x)}
  (l : list A) (it : nat) (x : A) :
  l !! it = Some x → ¬ P x →
  (snd <$> list_find P (delete it l)) = (snd <$> list_find P l).
Proof.
  revert it. induction l as [|y l IH]; intros [|it] Hit Hx; try done.
  - cbn in Hit. injection Hit as ->. cbn. rewrite decide_False by done.
    rewrite <- option_fmap_compose. by destruct (list_find P l) as [[]|].
  - cbn in Hit. cbn. case_decide; [done|].
    rewrite <- !option_fmap_compose.
    specialize (IH it Hit Hx).
    destruct (list_find P (delete it l)) as [[]|], (list_find P l) as [[]|];
      cbn in *; congruence.
Qed.

Lemma list_find_alter_other {A} (P : A → Prop) `{∀ x, Decision (P x)}
  (g : A → A) (l : list A) (it : nat) (x : A) :
  l !! it = Some x → ¬ P x → ¬ P (g x) →
  (snd <$> list_find P (alter g it l)) = (snd <$> list_find P l).
Proof.
  revert it. induction l as [|y l IH]; intros [|it] Hit Hx Hgx; try done.
  - cbn in Hit. injection Hit as ->. cbn. by rewrite !decide_False by done.
  - cbn in Hit. cbn. case_decide; [done|].
    rewrite <- !option_fmap_compose.
    specialize (IH it Hit Hx Hgx).
    destruct (list_find P (alter g it l)) as [[]|], (list_find P l) as [[]|];
      cbn in *; congruence.
Qed.

Lemma getBreakpointForNode_find nodeId s :
  getBreakpointForNode nodeId s
  = snd <$> list_find (λ bp, bp_nodeId bp = nodeId) (m_breakpoints s).
Proof.
  unfold getBreakpointForNode. by destruct (list_find _ _) as [[]|].
Qed.

Lemma list_find_id_None (l : list Breakpoint) (breakpointId : string) :
  breakpointId ∉ (bp_id <$> l) →
  list_find (λ bp, bp_id bp = breakpointId) l = None.
Proof.
  intros Hnot. apply list_find_None, Forall_forall. intros bp Hin Heq.
  apply Hnot. rewrite <- Heq. by apply list_elem_of_fmap_2.
Qed.

(** X4. [removeBreakpoint] with an id no breakpoint carries changes
    nothing. In a well-formed registry, removing the id of a registered
    breakpoint leaves its node without a breakpoint and the id unused,
    shortens the list by one, and answers every other node as before; the
    id counter does not move, so the id is not issued again. *)
Theorem removeBreakpoint_erases_one (bp : Breakpoint) (breakpointId : string)
  (s : PlayModeController) :
  (breakpointId ∉ (bp_id <$> m_breakpoints s) →
   removeBreakpoint breakpointId s = s)
  ∧ (registry_wf (registry s) → bp ∈ m_breakpoints s →
     getBreakpointForNode (bp_nodeId bp) (removeBreakpoint (bp_id bp) s) = None
     ∧ (bp_id bp ∉ bp_id <$> m_breakpoints (removeBreakpoint (bp_id bp) s))
     ∧ S (length (m_breakpoints (removeBreakpoint (bp_id bp) s)))
       = length (m_breakpoints s)
     ∧ (∀ nodeId, nodeId ≠ bp_nodeId bp →
          getBreakpointForNode nodeId (removeBreakpoint (bp_id bp) s)
          = getBreakpointForNode nodeId s)
     ∧ m_nextBreakpointId (removeBreakpoint (bp_id bp) s) = m_nextBreakpointId s).
Proof.
  split.
  - intros Hnot. unfold removeBreakpoint. by rewrite list_find_id_None.
  - intros [Hnodes Hids _] Hin. cbn in Hnodes, Hids.
    destruct (list_find_unique bp_id _ _ Hids Hin) as (it & Hit & Hfind).
    assert (removeBreakpoint (bp_id bp) s
            = set_breakpoints (delete it (m_breakpoints s)) s) as ->.
    { unfold removeBreakpoint. by rewrite Hfind. }
    rewrite !getBreakpointForNode_find.
    destruct s as [? ? ? ? ? bps ? ? ? ? ? ? ? ? ? ? ? ?]. ctl_eval.
    split; [by rewrite find_node_after_erase|].
    split; [by apply key_not_in_delete|].
    split.
    { rewrite length_delete by (by eexists).
      apply lookup_lt_Some in Hit. lia. }
    split; [|done].
    intros nodeId Hne. setoid_rewrite getBreakpointForNode_find. ctl_eval.
    by apply (list_find_delete_other _ _ _ bp).
Qed.

Lemma setBreakpointEnabled_found (bp : Breakpoint) (enabled : bool)
  (s : PlayModeController) :
  registry_wf (registry s) → bp ∈ m_breakpoints s →
  ∃ it, m_breakpoints s !! it = Some bp
    ∧ setBreakpointEnabled (bp_id bp) enabled s
      = set_breakpoints
          (alter (Breakpoint_set_enabled enabled) it (m_breakpoints s)) s
    ∧ getBreakpointForNode (bp_nodeId bp)
        (setBreakpointEnabled (bp_id bp) enabled s)
      = Some (Breakpoint_set_enabled enabled bp).
Proof.
  intros [Hnodes Hids _] Hin. cbn in Hnodes, Hids.
  destruct (list_find_unique bp_id _ _ Hids Hin) as (it & Hit & Hfind).
  exists it. split; [done|].
  assert (setBreakpointEnabled (bp_id bp) enabled s
          = set_breakpoints
              (alter (Breakpoint_set_enabled enabled) it (m_breakpoints s)) s)
    as Hset.
  { unfold setBreakpointEnabled. by rewrite Hfind. }
  split; [done|]. rewrite Hset, getBreakpointForNode_find.
  destruct s as [? ? ? ? ? bps ? ? ? ? ? ? ? ? ? ? ? ?]. ctl_eval.
  assert (NoDup (bp_nodeId <$> alter (Breakpoint_set_enabled enabled) it bps))
    as Hnd' by (by rewrite fmap_alter_same).
  destruct (list_find_unique bp_nodeId _ (Breakpoint_set_enabled enabled bp) Hnd')
    as (it' & _ & Hf).
  { eapply list_elem_of_lookup_2. by rewrite list_lookup_alter_eq, Hit. }
  cbn [bp_nodeId Breakpoint_set_enabled] in Hf. by rewrite Hf.
Qed.

(** X5. [setBreakpointEnabled] with an unknown id changes nothing. In a
    well-formed registry it rewrites the enabled flag of the breakpoint
    that carries the id and nothing else of that entry, answers every
    other node as before, and keeps the length of the list; enabling an
    enabled breakpoint again after disabling it restores the controller. *)
Theorem setBreakpointEnabled_flips_one (bp : Breakpoint) (breakpointId : string)
  (enabled : bool) (s : PlayModeController) :
  (breakpointId ∉ (bp_id <$> m_breakpoints s) →
   setBreakpointEnabled breakpointId enabled s = s)
  ∧ (registry_wf (registry s) → bp ∈ m_breakpoints s →
     getBreakpointForNode (bp_nodeId bp) (setBreakpointEnabled (bp_id bp) enabled s)
     = Some (Breakpoint_set_enabled enabled bp)
     ∧ length (m_breakpoints (setBreakpointEnabled (bp_id bp) enabled s))
       = length (m_breakpoints s)
     ∧ (∀ nodeId, nodeId ≠ bp_nodeId bp →
          getBreakpointForNode nodeId (setBreakpointEnabled (bp_id bp) enabled s)
          = getBreakpointForNode nodeId s)
     ∧ registry_wf (registry (setBreakpointEnabled (bp_id bp) enabled s))
     ∧ setBreakpointEnabled (bp_id bp) (bp_enabled bp)
         (setBreakpointEnabled (bp_id bp) enabled s) = s).
Proof.
  split.
  - intros Hnot. unfold setBreakpointEnabled. by rewrite list_find_id_None.
  - intros Hwf Hin. pose proof Hwf as [Hnodes Hids Hissued].
    cbn in Hnodes, Hids, Hissued.
    destruct (list_find_unique bp_id _ _ Hids Hin) as (it & Hit & Hfind).
    assert (∀ b, setBreakpointEnabled (bp_id bp) b s
            = set_breakpoints
                (alter (Breakpoint_set_enabled b) it (m_breakpoints s)) s) as Hset.
    { intros b. unfold setBreakpointEnabled. by rewrite Hfind. }
    assert (list_find (λ b, bp_id b = bp_id bp)
              (alter (Breakpoint_set_enabled enabled) it (m_breakpoints s))
            = Some (it, Breakpoint_set_enabled enabled bp)) as Hfind'.
    { apply list_find_Some. apply list_find_Some in Hfind as (_ & _ & Hfirst).
      split; [by rewrite list_lookup_alter_eq, Hit|]. split; [done|].
      intros j y Hj Hlt. rewrite list_lookup_alter_ne in Hj by lia.
      by apply (Hfirst j). }
    split; [|split; [|split; [|split]]].
    + rewrite Hset, getBreakpointForNode_find.
      destruct s as [? ? ? ? ? bps ? ? ? ? ? ? ? ? ? ? ? ?]. ctl_eval.
      assert (NoDup (bp_nodeId <$> alter (Breakpoint_set_enabled enabled) it bps))
        as Hnd' by (by rewrite fmap_alter_same).
      destruct (list_find_unique bp_nodeId _ (Breakpoint_set_enabled enabled bp) Hnd')
        as (it' & _ & Hf).
      { eapply list_elem_of_lookup_2. by rewrite list_lookup_alter_eq, Hit. }
      cbn [bp_nodeId Breakpoint_set_enabled] in Hf. by rewrite Hf.
    + rewrite Hset. destruct s. ctl_eval. apply length_alter.
    + intros nodeId Hne. rewrite Hset, !getBreakpointForNode_find.
      destruct s as [? ? ? ? ? bps ? ? ? ? ? ? ? ? ? ? ? ?]. ctl_eval.
      by apply (list_find_alter_other _ _ _ _ bp).
    + rewrite Hset. destruct s as [? ? ? ? ? bps next ? ? ? ? ? ? ? ? ? ? ?].
      ctl_eval. split; cbn.
      * by rewrite fmap_alter_same.
      * by rewrite fmap_alter_same.
      * by apply issued_alter.
    + unfold setBreakpointEnabled at 1. rewrite Hset.
      destruct s as [? ? ? ? ? bps ? ? ? ? ? ? ? ? ? ? ? ?]. ctl_eval.
      rewrite Hfind'. ctl_eval. f_equal.
      apply list_eq. intros j. destruct (decide (j = it)) as [->|Hne].
      * rewrite !list_lookup_alter_eq, Hit. cbn. by destruct bp.
      * by rewrite !list_lookup_alter_ne.
Qed.

(** X6. A disabled breakpoint is skipped: in a well-formed registry, once
    the breakpoint on the current node is disabled through
    [setBreakpointEnabled], a frame leaves the controller [Playing] with the
    flag as it was, and the entry keeps its hit count. *)
Theorem disabled_breakpoint_is_skipped (deltaTime : f64) (bp : Breakpoint)
  (s : PlayModeController) :
  m_state s = Playing →
  registry_wf (registry s) →
  bp ∈ m_breakpoints s →
  bp_nodeId bp = m_currentNodeId s →
  m_state (update deltaTime (setBreakpointEnabled (bp_id bp) false s)) = Playing
  ∧ m_atBreakpoint (update deltaTime (setBreakpointEnabled (bp_id bp) false s))
    = m_atBreakpoint s
  ∧ getBreakpointForNode (bp_nodeId bp)
      (update deltaTime (setBreakpointEnabled (bp_id bp) false s))
    = Some (Breakpoint_set_enabled false bp)
  ∧ bp_hitCount (Breakpoint_set_enabled false bp) = bp_hitCount bp.
Proof.
  intros Hst Hwf Hin Hnode.
  destruct (setBreakpointEnabled_found bp false s Hwf Hin)
    as (it & Hit & Hset & Hlook).
  assert (m_state (setBreakpointEnabled (bp_id bp) false s) = Playing) as Hst'.
  { rewrite Hset. by destruct s. }
  assert (m_currentNodeId (setBreakpointEnabled (bp_id bp) false s)
          = m_currentNodeId s) as Hnode'.
  { rewrite Hset. by destruct s. }
  rewrite (update_no_hit deltaTime _ Hst').
  - destruct (updateStats_shape
                (deltaTime
                 * timeScale (m_config (setBreakpointEnabled (bp_id bp) false s)))%float
                (setBreakpointEnabled (bp_id bp) false s))
      as (st & l & a & c & ->).
    rewrite getBreakpointForNode_find. rewrite getBreakpointForNode_find in Hlook.
    revert Hst' Hlook. rewrite Hset. destruct s. ctl_eval. intros _ Hlook.
    by rewrite Hlook.
  - right. right. right. exists (Breakpoint_set_enabled false bp).
    by rewrite Hnode', <- Hnode.
Qed.

(** X7. Continuing from a breakpoint without moving on re-triggers it: after
    a hit on a breakpoint that is not [hitOnce], [continueExecution] brings
    the controller back to [Playing], and the next frame hits the same
    breakpoint again, since the current node is unchanged; the controller
    is [Paused] at it with the hit counted twice. *)
Theorem continue_then_frame_hits_again (deltaTime deltaTime' : f64)
  (bp : Breakpoint) (s : PlayModeController) :
  m_state s = Playing →
  enableBreakpoints (m_config s) = true →
  m_currentNodeId s ≠ "" →
  registry_wf (registry s) →
  bp ∈ m_breakpoints s →
  bp_nodeId bp = m_currentNodeId s →
  bp_enabled bp = true →
  bp_hitOnce bp = false →
  m_state (continueExecution (update deltaTime s)) = Playing
  ∧ m_atBreakpoint (continueExecution (update deltaTime s)) = false
  ∧ m_state (update deltaTime' (continueExecution (update deltaTime s))) = Paused
  ∧ m_atBreakpoint (update deltaTime' (continueExecution (update deltaTime s)))
    = true
  ∧ getBreakpointForNode (bp_nodeId bp)
      (update deltaTime' (continueExecution (update deltaTime s)))
    = Some (Breakpoint_hit (Breakpoint_hit bp)).
Proof.
  intros Hst Hen Hnode Hwf Hin Hbp Henabled Honce.
  destruct (update_at_breakpoint deltaTime s bp) as (it & Hit & Hupd); [done..|].
  pose proof Hwf as [Hnodes Hids Hissued]. cbn in Hnodes, Hids, Hissued.
  set (s2 := continueExecution (update deltaTime s)).
  assert (m_state s2 = Playing ∧ m_atBreakpoint s2 = false
          ∧ m_config s2 = m_config s ∧ m_currentNodeId s2 = m_currentNodeId s
          ∧ registry s2
            = (alter Breakpoint_hit it (m_breakpoints s), m_nextBreakpointId s))
    as (Hst2 & Hflag2 & Hcfg2 & Hnode2 & Hreg2).
  { subst s2. rewrite Hupd. unfold hit_registered. cbv zeta. rewrite Honce.
    destruct (updateStats_shape (deltaTime * timeScale (m_config s))%float s)
      as (st & l & a & c & ->).
    revert Hst. clear. destruct s as [[] ? ? ? ? ? ? ? ? ? ? ? ? ? ? ? ? ?];
      intros Hst; done. }
  assert (registry_wf (registry s2)) as Hwf2.
  { rewrite Hreg2. split; cbn.
    - by rewrite fmap_alter_same.
    - by rewrite fmap_alter_same.
    - by apply issued_alter. }
  assert (Breakpoint_hit bp ∈ m_breakpoints s2) as Hin2.
  { change (m_breakpoints s2) with (registry s2).1. rewrite Hreg2. cbn.
    eapply list_elem_of_lookup_2. by rewrite list_lookup_alter_eq, Hit. }
  split; [done|]. split; [done|].
  destruct (update_at_breakpoint deltaTime' s2 (Breakpoint_hit bp))
    as (it2 & Hit2 & Hupd2); try done.
  { by rewrite Hcfg2. }
  { by rewrite Hnode2. }
  { by rewrite Hnode2. }
  rewrite Hupd2. unfold hit_registered. cbv zeta.
  cbn [bp_hitOnce Breakpoint_hit]. rewrite Honce.
  assert (NoDup (bp_nodeId <$> m_breakpoints s2)) as Hnodes2 by apply Hwf2.
  pose proof (find_node_after_hit _ _ _ Hnodes2 Hit2) as Hfind.
  cbn [bp_nodeId Breakpoint_hit] in Hfind.
  destruct (updateStats_shape (deltaTime' * timeScale (m_config s2))%float s2)
    as (st & l & a & c & ->).
  revert Hst2 Hfind. generalize s2. clear.
  intros [[] ? ? ? ? ? ? ? ? ? ? ? ? ? ? ? ? ?] Hst2 Hfind; try done.
  ctl_run. rewrite decide_False by (by intros []). ctl_run.
  by rewrite Hfind.
Qed.

End Frames.


(** ** Listeners, variables and the play controls *)

Section Controls.

Context `{!TimelinePlaybackEngine}.






(** X9. The variable table reads back what was written: [getVariable]
    answers the last value set under the name, other names are not
    affected, a name never set reads as the empty string, and a second
    [setVariable] on a name replaces the first. [setVariable] is accepted
    in every state and leaves the state alone; [stop] in play mode makes
    every name read as the empty string. *)
Theorem variables_read_back (name other value value' : string)
  (s : PlayModeController) :
  getVariable name (setVariable name value s) = value
  ∧ (other ≠ name →
     getVariable other (setVariable name value s) = getVariable other s)
  ∧ (getAllVariables s !! name = None → getVariable name s = "")
  ∧ setVariable name value' (setVariable name value s) = setVariable name value' s
  ∧ m_state (setVariable name value s) = m_state s
  ∧ (isInPlayMode s = true →
     getVariable name (stop (setVariable name value s)) = "").
Proof.
  split; [|split; [|split; [|split; [|split]]]].
  - unfold getVariable. destruct s. ctl_run. by rewrite lookup_insert_eq.
  - intros Hne. unfold getVariable. destruct s. ctl_run.
    by rewrite lookup_insert_ne.
  - unfold getVariable, getAllVariables. by intros ->.
  - destruct s. ctl_run. by rewrite insert_insert_eq.
  - by destruct s.
  - intros Hin. unfold getVariable.
    destruct s as [[] ? ? ? [snap|] ? ? ? ? ? ? ? ? ? ? ? ? ?]; try done;
      by ctl_run.
Qed.

(** X10. [togglePlayPause] moves a stopped controller to [Playing], a
    playing one to [Paused] and a paused one to [Playing], with the
    breakpoint flag down in the last case whether the pause was at a
    breakpoint or not; in the transient states it changes nothing. *)
Theorem togglePlayPause_transitions (s : PlayModeController) :
  m_state (togglePlayPause s)
  = match m_state s with
    | Stopped => Playing
    | Playing => Paused
    | Paused => Playing
    | Starting => Starting
    | Stopping => Stopping
    end
  ∧ (m_state s = Paused → m_atBreakpoint (togglePlayPause s) = false)
  ∧ (m_state s = Starting ∨ m_state s = Stopping → togglePlayPause s = s).
Proof.
  destruct s as [[] ? ? ? ? ? ? [] ? ? ? ? ? ? ? ? ? ?]; ctl_cases;
    (split; [done|]; split; [done|]; by intros [|]).
Qed.

(** X11. [restart] always resets the statistics and frame timers and never
    touches the registry. From [Stopped] it is [play]; otherwise it rewinds
    the playback engine first, empties the variable table and clears the
    breakpoint flag. A stopped, playing or paused controller is [Playing]
    afterwards, a pause at a breakpoint included. *)
Theorem restart_resets_session (s : PlayModeController) :
  m_stats (restart s) = PlayModeStats_default
  ∧ m_lastFrameTime (restart s) = 0%float
  ∧ m_frameTimeAccumulator (restart s) = 0%float
  ∧ m_frameTimeCount (restart s) = 0%N
  ∧ m_breakpoints (restart s) = m_breakpoints s
  ∧ (m_state s = Stopped → restart s = play s)
  ∧ (m_state s ≠ Stopped →
     m_variables (restart s) = ∅
     ∧ m_atBreakpoint (restart s) = false
     ∧ m_currentBreakpointId (restart s) = ""
     ∧ ∃ rest, outbound (restart s) = outbound s ++ Timeline_jumpToStart :: rest)
  ∧ (m_state s = Stopped ∨ m_state s = Playing ∨ m_state s = Paused →
     m_state (restart s) = Playing).
Proof.
  destruct s as [[] ? ? ? ? ? ? ? ? ? ? ? ? ? ? ? ? ?]; ctl_cases;
    repeat (split; [done|]).
  all: try (split; [|by intros [|[|]]]).
  all: try (split; [intros _|by intros _]).
  all: try (by intros _; repeat split; eauto using app_nil_r).
  all: repeat (split; [done|]).
  all: try (eexists; rewrite <- !(assoc_L (++)); cbn; reflexivity).
  all: try (exists []; reflexivity).
  all: try (by intros [|[|]]).
Qed.

End Controls.


(** ** Errors, lifecycle and sessions *)

(** With the state known, the guards on the state are decided one by one
    instead of being split. *)
Ltac ctl_guards :=
  repeat (ctl_run;
          first [ rewrite bool_decide_true by done
                | rewrite bool_decide_false by done
                | rewrite decide_True by done
                | rewrite decide_False by done
                | progress cbn [orb andb negb] ]);
  ctl_run.

Section Lifecycle.

Context `{!TimelinePlaybackEngine}.

(** X12. [notifyError] counts the error, tells every listener and then the
    bus, and pauses exactly when [pauseOnError] is configured and the
    controller is [Playing]; otherwise the state is left alone. It never
    raises the breakpoint flag, so a pause forced by an error is left by
    an ordinary [resume]. *)
Theorem notifyError_pauses_when_configured (error nodeId : string)
  (s : PlayModeController) :
  scriptErrorCount (m_stats (notifyError error nodeId s))
  = u32_incr (scriptErrorCount (m_stats s))
  ∧ m_state (notifyError error nodeId s)
    = (if pauseOnError (m_config s) && bool_decide (m_state s = Playing)
       then Paused else m_state s)
  ∧ m_atBreakpoint (notifyError error nodeId s) = m_atBreakpoint s
  ∧ outbound (notifyError error nodeId s)
    = outbound s
      ++ ((λ l, Listener_onScriptError l error nodeId) <$> m_listeners s)
      ++ [EventBus_publish (PlayModeErrorEvent error nodeId "" 0%N)]
      ++ (if pauseOnError (m_config s) && bool_decide (m_state s = Playing)
          then pause_calls (m_listeners s) else [])
  ∧ (m_state s = Playing → pauseOnError (m_config s) = true →
     m_atBreakpoint s = false →
     m_state (resume (notifyError error nodeId s)) = Playing).
Proof.
  destruct s as [[] [c1 c2 c3 c4 [] c6 c7 c8 c9] ? [t1 t2 t3 t4 t5 t6 t7 t8 t9]
                   ? ? ? [] ? ? ? ? ? ? ? ? ? ?];
    unfold pause_calls; ctl_cases; ctl_run;
    cbn [pauseOnError scriptErrorCount andb];
    rewrite <- ?(assoc_L (++)), ?app_nil_r; cbn [app];
    repeat split; try done; by rewrite ?app_nil_r.
Qed.

Lemma shutdown_of_shut_down s :
  m_state s = Stopped → m_listeners s = [] → m_breakpoints s = [] →
  m_variables s = ∅ → m_app s = None → shutdown s = s.
Proof.
  destruct s. ctl_run. intros -> -> -> -> ->. by ctl_guards.
Qed.

(** X13. [shutdown] ends in the stopped state with no listener and no
    application, whatever the state before; a session in progress is
    stopped first, so the calls made are those of [stop] and its listeners
    still receive the stop notifications. A second [shutdown] changes
    nothing, and the id counter is kept: ids issued before are not issued
    again. *)
Theorem shutdown_is_final (s : PlayModeController) :
  isStopped (shutdown s) = true
  ∧ isPlaying (shutdown s) = false
  ∧ isPaused (shutdown s) = false
  ∧ isInPlayMode (shutdown s) = false
  ∧ m_listeners (shutdown s) = []
  ∧ m_app (shutdown s) = None
  ∧ outbound (shutdown s) = outbound (if isInPlayMode s then stop s else s)
  ∧ m_nextBreakpointId (shutdown s) = m_nextBreakpointId s
  ∧ shutdown (shutdown s) = shutdown s.
Proof.
  assert (m_state (shutdown s) = Stopped ∧ m_listeners (shutdown s) = []
          ∧ m_breakpoints (shutdown s) = [] ∧ m_variables (shutdown s) = ∅
          ∧ m_app (shutdown s) = None
          ∧ outbound (shutdown s) = outbound (if isInPlayMode s then stop s else s)
          ∧ m_nextBreakpointId (shutdown s) = m_nextBreakpointId s)
    as (Hst & Hls & Hbps & Hvars & Happ & Hout & Hnext).
  { destruct s as [[] ? ? ? [snap|] ? ? ? ? ? ? ? ? ? ? ? ? ?];
      ctl_guards; repeat split; reflexivity. }
  unfold isStopped, isPlaying, isPaused, isInPlayMode. rewrite Hst.
  repeat (split; [done|]). by apply shutdown_of_shut_down.
Qed.

(** X14. [continueExecution] does nothing when the controller is not at a
    breakpoint. At a breakpoint pause it does what [resume] does once the
    flag is cleared, except that it publishes nothing on the event bus:
    [resume] is [continueExecution] followed by the publication of the
    change from [Paused] to [Playing]. *)
Theorem continueExecution_is_resume_without_bus_event (s : PlayModeController) :
  (m_atBreakpoint s = false → continueExecution s = s)
  ∧ (m_state s = Paused → m_atBreakpoint s = true →
     resume (set_currentBreakpointId "" (set_atBreakpoint false s))
     = emit (EventBus_publish (PlayModeStateChangedEvent Paused Playing))
         (continueExecution s)
     ∧ m_state (continueExecution s) = Playing
     ∧ m_atBreakpoint (continueExecution s) = false
     ∧ m_currentBreakpointId (continueExecution s) = "").
Proof.
  split.
  - intros Hflag. unfold continueExecution. by rewrite Hflag.
  - intros Hst Hflag.
    destruct s as [[] ? ? ? ? ? ? [] ? ? ? ? ? ? ? ? ? ?]; try done.
Qed.

(** [enterPlayMode] and [exitPlayMode] member by member. *)
Lemma enterPlayMode_shape s :
  enterPlayMode s
  = mkPlayModeController Playing (m_config s) (m_defaultConfig s)
      PlayModeStats_default
      (Some (mkSceneSnapshot (m_currentSceneId s) []
               (Timeline_getCurrentTime
                  (outbound s
                   ++ ((λ l, Listener_onPlayModeStateChanged l (m_state s) Starting)
                         <$> m_listeners s)
                   ++ (Listener_onPlayModeStarting <$> m_listeners s)))
               [] ∅))
      (m_breakpoints s) (m_nextBreakpointId s) (m_atBreakpoint s)
      (m_currentBreakpointId s) (m_variables s) (m_currentNodeId s)
      (m_currentSceneId s) 0%float 0%float 0%N (m_listeners s) (m_app s)
      (outbound s
       ++ ((λ l, Listener_onPlayModeStateChanged l (m_state s) Starting)
             <$> m_listeners s)
       ++ (Listener_onPlayModeStarting <$> m_listeners s)
       ++ [Timeline_setSpeed (timeScale (m_config s))]
       ++ (if startFromCurrentScene (m_config s) then [] else [Timeline_jumpToStart])
       ++ [Timeline_play]
       ++ ((λ l, Listener_onPlayModeStateChanged l Starting Playing)
             <$> m_listeners s)
       ++ (Listener_onPlayModeStarted <$> m_listeners s)
       ++ [EventBus_publish (PlayModeStateChangedEvent Starting Playing)]).
Proof.
  destruct s as [? [[] c2 c3 c4 c5 c6 c7 c8 c9] ? ? ? ? ? ? ? ? ? ? ? ? ? ? ? ?];
    ctl_run; cbn [startFromCurrentScene timeScale negb]; ctl_run;
    rewrite <- ?(assoc_L (++)); reflexivity.
Qed.

Lemma exitPlayMode_shape s :
  exitPlayMode s
  = mkPlayModeController Stopped (m_config s) (m_defaultConfig s) (m_stats s)
      None (m_breakpoints s) (m_nextBreakpointId s) false "" ∅ "" ""
      (m_lastFrameTime s) (m_frameTimeAccumulator s) (m_frameTimeCount s)
      (m_listeners s) (m_app s)
      (outbound s
       ++ ((λ l, Listener_onPlayModeStateChanged l (m_state s) Stopping)
             <$> m_listeners s)
       ++ (Listener_onPlayModeStopping <$> m_listeners s)
       ++ [Timeline_stop]
       ++ match m_sceneSnapshot s with
          | Some snap => [Timeline_seekTo (snap_timelinePosition snap)]
          | None => []
          end
       ++ ((λ l, Listener_onPlayModeStateChanged l Stopping Stopped)
             <$> m_listeners s)
       ++ (Listener_onPlayModeStopped <$> m_listeners s)
       ++ [EventBus_publish (PlayModeStateChangedEvent Stopping Stopped)]).
Proof.
  destruct s as [? ? ? ? [snap|] ? ? ? ? ? ? ? ? ? ? ? ? ?];
    ctl_run; rewrite <- ?(assoc_L (++)); reflexivity.
Qed.

(** X15. A session from [play] to [stop]. [play] on a stopped controller
    stores the configuration it is given, takes a snapshot of the current
    scene id and of the time the playback engine reports, and ends
    [Playing] with fresh statistics; the registry, the listeners and the
    variables set before are kept. [stop] then seeks the playback engine
    back to the time of the snapshot, drops the snapshot and ends
    [Stopped]; the configuration of the session stays the active one. *)
Theorem play_then_stop_restores_timeline (config : PlayModeConfig)
  (s : PlayModeController) :
  m_state s = Stopped →
  ∃ time,
    m_sceneSnapshot (play_with config s)
    = Some (mkSceneSnapshot (m_currentSceneId s) [] time [] ∅)
    ∧ time
      = Timeline_getCurrentTime
          (outbound s
           ++ ((λ l, Listener_onPlayModeStateChanged l Stopped Starting)
                 <$> m_listeners s)
           ++ (Listener_onPlayModeStarting <$> m_listeners s))
    ∧ m_state (play_with config s) = Playing
    ∧ m_config (play_with config s) = config
    ∧ m_stats (play_with config s) = PlayModeStats_default
    ∧ m_breakpoints (play_with config s) = m_breakpoints s
    ∧ m_variables (play_with config s) = m_variables s
    ∧ m_listeners (play_with config s) = m_listeners s
    ∧ outbound (stop (play_with config s))
      = outbound (play_with config s)
        ++ ((λ l, Listener_onPlayModeStateChanged l Playing Stopping)
              <$> m_listeners s)
        ++ (Listener_onPlayModeStopping <$> m_listeners s)
        ++ [Timeline_stop; Timeline_seekTo time]
        ++ ((λ l, Listener_onPlayModeStateChanged l Stopping Stopped)
              <$> m_listeners s)
        ++ (Listener_onPlayModeStopped <$> m_listeners s)
        ++ [EventBus_publish (PlayModeStateChangedEvent Stopping Stopped)]
    ∧ m_state (stop (play_with config s)) = Stopped
    ∧ m_sceneSnapshot (stop (play_with config s)) = None
    ∧ m_config (stop (play_with config s)) = config
    ∧ m_breakpoints (stop (play_with config s)) = m_breakpoints s.
Proof.
  intros Hst.
  exists (Timeline_getCurrentTime
            (outbound s
             ++ ((λ l, Listener_onPlayModeStateChanged l Stopped Starting)
                   <$> m_listeners s)
             ++ (Listener_onPlayModeStarting <$> m_listeners s))).
  assert (play_with config s = enterPlayMode (set_config config s)) as ->.
  { unfold play_with. rewrite decide_False; [done|]. by intros []. }
  rewrite enterPlayMode_shape.
  unfold stop. rewrite decide_False by done. rewrite exitPlayMode_shape.
  destruct s. ctl_eval. cbn in Hst. subst. by repeat split.
Qed.

(** X16. The breakpoint scenario of the GUI tests, for every controller,
    node and condition: after [clearAllBreakpoints] the list is empty;
    [addBreakpoint] then leaves exactly one breakpoint, found under its
    node with that node and condition, enabled and never hit; and
    [toggleBreakpoint] on the node empties the list again. *)
Theorem clear_add_toggle (nodeId condition : string) (s : PlayModeController) :
  getBreakpoints (clearAllBreakpoints s) = []
  ∧ length (getBreakpoints (addBreakpoint nodeId condition (clearAllBreakpoints s)))
    = 1
  ∧ (∃ bp,
       getBreakpointForNode nodeId
         (addBreakpoint nodeId condition (clearAllBreakpoints s)) = Some bp
       ∧ bp_nodeId bp = nodeId ∧ bp_condition bp = condition
       ∧ bp_enabled bp = true ∧ bp_hitCount bp = 0%N)
  ∧ getBreakpoints
      (toggleBreakpoint nodeId
         (addBreakpoint nodeId condition (clearAllBreakpoints s))) = [].
Proof.
  destruct s. unfold getBreakpoints. ctl_run. cbn [list_find app].
  rewrite decide_True by done. cbn. ctl_run. cbn [list_find].
  rewrite !decide_True by done. cbn. ctl_run.
  split; [done|]. split; [done|]. split; [|done].
  eexists. by repeat split.
Qed.

(** X17. Breakpoint ids are not reused: in every state reached by fewer
    commands than it takes to exhaust the 64 bit counter, the registered
    breakpoints have pairwise distinct ids and pairwise distinct nodes,
    and the id the next registration would issue is carried by none of
    them. *)
Theorem breakpoint_ids_are_fresh (cs : list Command) :
  (N.of_nat (length cs) + 2 < 2 ^ 64)%N →
  NoDup (bp_id <$> m_breakpoints (run cs PlayModeController_new))
  ∧ NoDup (bp_nodeId <$> m_breakpoints (run cs PlayModeController_new))
  ∧ (fst (generateBreakpointId (run cs PlayModeController_new))
     ∉ bp_id <$> m_breakpoints (run cs PlayModeController_new)).
Proof.
  intros Hlen. destruct (run_registry_wf cs Hlen) as [Hwf _].
  split; [apply Hwf|]. split; [apply Hwf|].
  pose proof (next_id_fresh _ _ Hwf) as Hfresh.
  rewrite list_find_None, Forall_forall in Hfresh.
  intros (bp & Heq & Hin)%list_elem_of_fmap.
  apply (Hfresh bp Hin). symmetry. exact Heq.
Qed.

(** X18. Drawing the toolbar or the debug overlay issues no command: no
    toolbar button reports a click, so in every state the controller and
    the calls made on its collaborators are as before. *)
Theorem rendering_changes_nothing (s : PlayModeController) :
  renderToolbar s = s ∧ renderDebugOverlay s = s
  ∧ exec Call_renderToolbar s = s ∧ exec Call_renderDebugOverlay s = s.
Proof.
  assert (renderToolbar s = s) as Htool.
  { unfold renderToolbar, ToolbarButton. cbn [andb]. by repeat case_decide. }
  assert (renderDebugOverlay s = s) as Hover.
  { unfold renderDebugOverlay. by destruct (_ || _). }
  done.
Qed.

End Lifecycle.


(** ** What a caller can observe *)

Section Observable.

Context `{!TimelinePlaybackEngine}.

Lemma session_inv_cases s :
  session_inv s →
  (m_state s = Stopped ∧ m_sceneSnapshot s = None ∧ m_atBreakpoint s = false
   ∧ m_currentNodeId s = "" ∧ m_currentSceneId s = ""
   ∧ m_currentBreakpointId s = "")
  ∨ (∃ snap, (m_state s = Playing ∨ m_state s = Paused)
       ∧ m_sceneSnapshot s = Some snap ∧ snap_sceneId snap = ""
       ∧ (m_atBreakpoint s = false → m_currentBreakpointId s = "")).
Proof.
  intros (Hst & Hsnap & Hscene & Hstopped & Hflag).
  destruct Hst as [Hst|Hst].
  - left. destruct (Hstopped Hst) as (Hf & Hn & Hs).
    repeat split; try done; [by apply Hsnap|by apply Hflag].
  - right. destruct (m_sceneSnapshot s) as [snap|] eqn:Hs.
    + exists snap. repeat split; try done. by apply Hscene.
    + destruct Hsnap as [Hs1 _]. specialize (Hs1 eq_refl).
      destruct Hst; congruence.
Qed.

(** The invariant of a controller whose members are known. *)
Ltac session_inv_done :=
  unfold session_inv; ctl_run;
  split; [by auto|];
  split; [by split|];
  split; [by intros ? [= <-]|];
  split; [by intros ?|by auto].

Lemma exec_session_inv c s : session_inv s → session_inv (exec c s).
Proof.
  intros Hinv. apply session_inv_cases in Hinv.
  destruct s as [st cfg dcfg stats snap bps next flag bpid vars node scene
                   lft acc cnt ls app out].
  cbn in Hinv.
  destruct Hinv as [(-> & -> & -> & -> & -> & ->)
                   |(sn & Hst & -> & Hsn & Hflag)].
  - destruct c; unfold exec;
      rewrite ?stepNext_id, ?stepInto_id, ?stepOut_id, ?renderToolbar_id,
        ?renderDebugOverlay_id, ?update_not_Playing by done;
      ctl_guards; try session_inv_done.
    all: repeat (ctl_case_step; ctl_run); session_inv_done.
  - assert (flag = true ∨ (flag = false ∧ bpid = "")) as [->|[-> ->]]
      by (destruct flag; auto).
    all: clear Hflag; destruct Hst as [-> | ->].
    all: destruct c; unfold exec;
      rewrite ?stepNext_id, ?stepInto_id, ?stepOut_id, ?renderToolbar_id,
        ?renderDebugOverlay_id, ?update_not_Playing by done;
      try (rewrite update_unfold; cbv zeta;
           match goal with
           | |- context [updateStats ?d ?x] =>
               destruct (updateStats_shape d x) as (? & ? & ? & ? & ->)
           end);
      ctl_guards; try session_inv_done.
    all: repeat (ctl_case_step; ctl_run); session_inv_done.
Qed.

(** X19. Between two public calls the controller is [Stopped], [Playing]
    or [Paused]: the transient states are never observed. It holds a scene
    snapshot exactly when it is not [Stopped], and the scene id of the
    snapshot is empty, since no scene can be entered while stopped. A
    stopped controller has the flag down and no current node or scene, and
    the id of the current breakpoint is empty whenever the flag is down. *)
Theorem reachable_states_are_settled (s : PlayModeController) :
  reachable s →
  (m_state s = Stopped ∨ m_state s = Playing ∨ m_state s = Paused)
  ∧ (m_sceneSnapshot s = None ↔ m_state s = Stopped)
  ∧ (∀ snap, m_sceneSnapshot s = Some snap → snap_sceneId snap = "")
  ∧ (m_state s = Stopped →
     m_atBreakpoint s = false ∧ m_currentNodeId s = ""
     ∧ m_currentSceneId s = "")
  ∧ (m_atBreakpoint s = false → m_currentBreakpointId s = "").
Proof.
  revert s. apply (reachable_ind session_inv).
  - unfold session_inv. cbn. by repeat split; eauto.
  - apply exec_session_inv.
Qed.

End Observable.

(** ** What a command tells the listeners, the event bus and the engine *)

Section Log.

Context `{!TimelinePlaybackEngine}.

Lemma follow_fmap_app_skip l st (f : Listener → Effect) ls log :
  (∀ l', l' ∈ ls → state_change_for l (f l') = None) →
  follow l st ((f <$> ls) ++ log) = follow l st log.
Proof.
  intros Hf. induction ls as [|l' ls IH]; [done|].
  cbn [fmap list_fmap app follow]. rewrite Hf by left.
  apply IH. intros l'' Hin. apply Hf. by right.
Qed.

Lemma follow_fmap_app_other l st (f : Listener → Effect) ls log :
  (∀ l', state_change_for l (f l') = None) →
  follow l st ((f <$> ls) ++ log) = follow l st log.
Proof. intros Hf. apply follow_fmap_app_skip. auto. Qed.

Lemma follow_fmap_other l st (f : Listener → Effect) ls :
  (∀ l', state_change_for l (f l') = None) →
  follow l st (f <$> ls) = Some st.
Proof.
  intros Hf. rewrite <- (app_nil_r (f <$> ls)).
  by rewrite follow_fmap_app_other.
Qed.

Lemma follow_fmap_app_notify l oldState newState ls log :
  NoDup ls → l ∈ ls →
  follow l oldState
    (((λ l, Listener_onPlayModeStateChanged l oldState newState) <$> ls)
       ++ log)
  = follow l newState log.
Proof.
  intros Hnd Hin. induction ls as [|l' ls IH]; [by apply elem_of_nil in Hin|].
  apply NoDup_cons in Hnd as [Hl' Hnd].
  cbn [fmap list_fmap app follow state_change_for].
  destruct (decide (l' = l)) as [->|Hne].
  - rewrite !decide_True by done.
    apply (follow_fmap_app_skip l newState
             (λ l, Listener_onPlayModeStateChanged l oldState newState)).
    intros l' Hl. cbn [state_change_for].
    case_decide; [by subst|done].
  - apply IH; [done|]. apply elem_of_cons in Hin as [->|]; done.
Qed.

Lemma follow_fmap_notify l oldState newState ls :
  NoDup ls → l ∈ ls →
  follow l oldState
    ((λ l, Listener_onPlayModeStateChanged l oldState newState) <$> ls)
  = Some newState.
Proof.
  intros Hnd Hin.
  rewrite <- (app_nil_r (_ <$> ls)). by rewrite follow_fmap_app_notify.
Qed.

Lemma omap_fmap_none {A B C} (g : B → option C) (f : A → B) (l : list A) :
  (∀ x, g (f x) = None) → omap g (f <$> l) = [].
Proof.
  intros Hf. induction l as [|x l IH]; [done|].
  cbn [fmap list_fmap omap list_omap]. by rewrite Hf.
Qed.

(** The calls a command adds, with the log of the controller before it
    taken off. *)
Ltac log_tail := rewrite <- ?app_assoc; rewrite ?drop_app_length, ?drop_all.

Ltac log_cases c s :=
  unfold calls_since;
  exec_cases c s; ctl_run; repeat (ctl_case_step; ctl_run);
  log_tail.

(** The same for a goal that mentions the result of the command more than
    once: the controller the command leaves is named first, so that the
    command is run once. *)
Ltac log_cases_once c s :=
  unfold calls_since;
  let Hexec := fresh "Hexec" in
  destruct (exec c s) as [st' cfg' dcfg' stats' snap' bps' next' flag' bpid'
                            vars' node' scene' lft' acc' cnt' ls' app' out']
    eqn:Hexec;
  revert Hexec;
  exec_cases c s; ctl_run; repeat (ctl_case_step; ctl_run);
  intros Hexec; injection Hexec as <- <- <- <- <- <- <- <- <- <- <- <- <- <-
                                     <- <- <- <-;
  log_tail.

(** X20. A registered listener can follow the state of the controller from
    its callbacks alone: during any command, every state change it is told
    starts from the state the previous one ended in (the state before the
    command for the first), and the last one ends in the state the
    controller is left in. Transient states are reported on the way. *)
Theorem listener_follows_state (c : Command) (l : Listener)
    (s : PlayModeController) :
  NoDup (m_listeners s) →
  l ∈ m_listeners s →
  follow l (m_state s) (calls_since s (exec c s)) = Some (m_state (exec c s)).
Proof.
  intros Hnd Hin. revert Hnd Hin. log_cases_once c s; intros Hnd Hin.
  all: repeat first
         [ rewrite follow_fmap_app_notify by done
         | rewrite follow_fmap_notify by done
         | rewrite follow_fmap_app_other by done
         | rewrite follow_fmap_other by done
         | progress cbn [Datatypes.app follow state_change_for] ].
  all: done.
Qed.

(** X21. A command calls back only listeners that were registered when it
    was called; a listener that has been removed, or a listener of a
    controller that was shut down, is not called again. *)
Theorem only_registered_listeners_are_called (c : Command)
    (s : PlayModeController) :
  Forall (λ e, ∀ l, callback_listener e = Some l → l ∈ m_listeners s)
    (calls_since s (exec c s)).
Proof.
  log_cases c s.
  all: repeat first
         [ apply Forall_nil_2
         | apply Forall_app_2
         | apply Forall_cons_2; [by intros ? [=]|]
         | apply Forall_fmap, Forall_forall; by intros ? ? ? [= <-] ].
Qed.

(** The state changes a registered listener is told by one notification
    round. *)
Lemma omap_told_notify l oldState newState ls :
  NoDup ls → l ∈ ls →
  omap (state_change_for l)
    ((λ l, Listener_onPlayModeStateChanged l oldState newState) <$> ls)
  = [(oldState, newState)].
Proof.
  intros Hnd Hin. induction ls as [|l' ls IH]; [by apply elem_of_nil in Hin|].
  apply NoDup_cons in Hnd as [Hl' Hnd].
  cbn [fmap list_fmap omap list_omap state_change_for].
  destruct (decide (l' = l)) as [->|Hne].
  - f_equal. clear IH Hin Hnd.
    induction ls as [|l'' ls IH]; [done|].
    apply not_elem_of_cons in Hl' as [Hne Hl'].
    cbn [fmap list_fmap omap list_omap state_change_for].
    rewrite decide_False by done. by apply IH.
  - apply IH; [done|]. apply elem_of_cons in Hin as [->|]; done.
Qed.

(** The state changes published during a command, against those a
    registered listener is told. *)
Lemma published_of_told (c : Command) (l : Listener) (s : PlayModeController) :
  NoDup (m_listeners s) → l ∈ m_listeners s →
  ((c = Call_continueExecution ∨ c = Call_togglePlayPause)
   ∧ m_state s = Paused ∧ m_atBreakpoint s = true →
   omap (state_change_for l) (calls_since s (exec c s)) = [(Paused, Playing)]
   ∧ omap published_state_change (calls_since s (exec c s)) = [])
  ∧ (¬ ((c = Call_continueExecution ∨ c = Call_togglePlayPause)
        ∧ m_state s = Paused ∧ m_atBreakpoint s = true) →
     omap published_state_change (calls_since s (exec c s))
     = filter (λ change, is_transient change.2 = false)
         (omap (state_change_for l) (calls_since s (exec c s)))).
Proof.
  intros Hnd Hin. revert Hnd Hin. log_cases_once c s; intros Hnd Hin.
  all: rewrite ?omap_app.
  all: rewrite ?(omap_told_notify l _ _ _ Hnd Hin).
  all: cbn [omap list_omap published_state_change state_change_for Datatypes.app].
  all: rewrite ?omap_fmap_none by done; cbn [Datatypes.app].
  all: try (split;
        [ first [ by intros [[?|?] [? ?]] | by intros _ | by intros [_ [_ ->]] ]
        | first [ done
                | intros Hn; exfalso; apply Hn;
                  split; [auto|split; [done|]] ] ]).
  all: match goal with |- ?b = true => by destruct b end.
Qed.

(** X22. Which state changes reach the event bus. A command publishes at
    most one, and its new state is the state the controller is left in.
    Of the state changes a registered listener is told during a command,
    the bus is told, in the same order, those that do not enter a transient
    state: the changes into [Starting] and into [Stopping] are never
    published. The exception is [continueExecution] at a breakpoint pause,
    called directly or through [togglePlayPause]: its change from [Paused]
    to [Playing] is told to the listeners and not published. It is also
    the only case in which a command leaves the controller in another state
    than it found it and publishes nothing. *)
Theorem bus_state_changes (c : Command) (l : Listener)
    (s : PlayModeController) :
  let published :=
    omap published_state_change (calls_since s (exec c s)) in
  let told := omap (state_change_for l) (calls_since s (exec c s)) in
  (published = [] ∨
   ∃ previousState,
     published = [(previousState, m_state (exec c s))]
     ∧ ((previousState, m_state (exec c s))
          ∈ [(Starting, Playing); (Playing, Paused); (Paused, Playing);
             (Stopping, Stopped)]))
  ∧ (published = [] → m_state (exec c s) ≠ m_state s →
     (c = Call_continueExecution ∨ c = Call_togglePlayPause)
     ∧ m_state s = Paused ∧ m_atBreakpoint s = true
     ∧ m_state (exec c s) = Playing)
  ∧ (NoDup (m_listeners s) → l ∈ m_listeners s →
     ((c = Call_continueExecution ∨ c = Call_togglePlayPause)
      ∧ m_state s = Paused ∧ m_atBreakpoint s = true →
      told = [(Paused, Playing)] ∧ published = [])
     ∧ (¬ ((c = Call_continueExecution ∨ c = Call_togglePlayPause)
           ∧ m_state s = Paused ∧ m_atBreakpoint s = true) →
        published = filter (λ change, is_transient change.2 = false) told)).
Proof.
  cbv zeta. rewrite (assoc and). split; [|apply published_of_told].
  log_cases_once c s.
  all: rewrite ?omap_app; cbn [omap list_omap published_state_change Datatypes.app].
  all: rewrite ?omap_fmap_none by done; cbn [Datatypes.app].
  all: split; [first [by left | right; eexists; split; [done|]; set_solver]
              |try done; intros _ _; auto].
  all: repeat split; auto.
  all: match goal with |- ?b = true => by destruct b end.
Qed.

(** X23. The playback engine is advanced by [update] while [Playing], by
    the frame's delta times the time scale of the session, once; no other
    command, and no frame in another state, advances it. *)
Theorem engine_advanced_by_playing_frames (c : Command)
    (s : PlayModeController) :
  omap timeline_update (calls_since s (exec c s)) =
    match c with
    | Call_update deltaTime =>
        if decide (m_state s = Playing)
        then [(deltaTime * timeScale (m_config s))%float]
        else []
    | _ => []
    end.
Proof.
  log_cases c s.
  all: rewrite ?omap_app; cbn [omap list_omap timeline_update Datatypes.app].
  all: rewrite ?omap_fmap_none by done; by cbn [Datatypes.app].
Qed.

End Log.

(** ** The current node and scene *)

Section Position.

Context `{!TimelinePlaybackEngine}.

(** X24. The current node and the current scene are moved by the caller
    only: a command leaves the current node as it was unless it is
    [jumpToNode] in play mode, which sets it, or it ends the session, which
    clears it; likewise for the scene and [jumpToScene]. In particular no
    frame moves either, and outside play mode the jumps are ignored. *)
Theorem position_moves_by_jump_only (c : Command) (s : PlayModeController) :
  (m_currentNodeId (exec c s) = m_currentNodeId s
   ∨ (∃ nodeId, c = Call_jumpToNode nodeId ∧ isInPlayMode s = true
                ∧ m_currentNodeId (exec c s) = nodeId)
   ∨ (m_state s ≠ Stopped ∧ m_state (exec c s) = Stopped
      ∧ m_currentNodeId (exec c s) = ""))
  ∧ (m_currentSceneId (exec c s) = m_currentSceneId s
     ∨ (∃ sceneId, c = Call_jumpToScene sceneId ∧ isInPlayMode s = true
                   ∧ m_currentSceneId (exec c s) = sceneId)
     ∨ (m_state s ≠ Stopped ∧ m_state (exec c s) = Stopped
        ∧ m_currentSceneId (exec c s) = ""))
  ∧ (isInPlayMode s = false →
     ∀ id, exec (Call_jumpToNode id) s = s ∧ exec (Call_jumpToScene id) s = s).
Proof.
  rewrite (assoc and). split.
  2: { intros Hout id. unfold exec, jumpToNode, jumpToScene.
       by rewrite Hout. }
  destruct (exec c s) as [st' cfg' dcfg' stats' snap' bps' next' flag'
                            bpid' vars' node' scene' lft' acc' cnt' ls'
                            app' out'] eqn:Hexec.
  revert Hexec.
  exec_cases c s; ctl_run; repeat (ctl_case_step; ctl_run).
  all: intros Hexec; injection Hexec as <- <- <- <- <- <- <- <- <- <- <- <- <-
                                          <- <- <- <- <-.
  all: split; first [by left | by right; right | right; left; by eexists].
Qed.

End Position.

(** ** Further scenarios, checked on the code *)

Lemma in_session_idle :
  m_currentNodeId in_session = "" ∧ m_atBreakpoint in_session = false
  ∧ pauseOnError (m_config in_session) = true.
Proof. repeat split; by_eval. Qed.

Lemma with_node_1_breakpoints : m_breakpoints with_node_1 = [bp_node_1].
Proof. by_eval. Qed.

Lemma before_hit_listeners : m_listeners before_hit = [7%N].
Proof. by_eval. Qed.

(** Scenario of X1: the scales 2, 11 and NaN during a session. *)
Lemma setTimeScale_clamps_witness :
  ((0 <? 2)%float = true ∧ (2 <=? 10)%float = true
   ∧ (10 <? 11)%float = true ∧ (0 <? nan)%float = false)
  ∧ timeScale (m_config (setTimeScale 2%float in_session)) = 2%float
  ∧ timeScale (m_config (setTimeScale 11%float in_session)) = 10%float
  ∧ timeScale (m_config (setTimeScale nan in_session)) = 0%float.
Proof.
  destruct (setTimeScale_clamps 2%float in_session) as (_ & _ & Hkeep & _).
  destruct (setTimeScale_clamps 11%float in_session) as (_ & _ & _ & Hhigh & _).
  destruct (setTimeScale_clamps nan in_session) as (_ & _ & _ & _ & Hlow & _).
  split; [exact (conj eq_refl (conj eq_refl (conj eq_refl eq_refl)))|].
  split; [exact (Hkeep eq_refl eq_refl)|].
  split; [exact (Hhigh eq_refl)|exact (Hlow eq_refl)].
Defined.

(** Scenario of X3: a frame of [in_session], where no node is current. *)
Lemma update_without_hit_witness :
  (m_state in_session = Playing ∧ m_currentNodeId in_session = "")
  ∧ m_state (update (1 / 60)%float in_session) = Playing
  ∧ outbound (update (1 / 60)%float in_session)
    = outbound in_session
      ++ [Timeline_update (1 / 60 * timeScale (m_config in_session))%float].
Proof.
  destruct in_session_facts as (_ & Hst & _).
  destruct in_session_idle as (Hnode & _).
  destruct (update_without_hit (1 / 60)%float in_session Hst
              (or_intror (or_introl Hnode)))
    as (_ & Hstate & _ & _ & Hout & _).
  exact (conj (conj Hst Hnode) (conj Hstate Hout)).
Defined.

(** Scenario of X4: removing bp_1, and an id nobody carries, in the
    registry of the test. *)
Lemma removeBreakpoint_erases_one_witness :
  (("bp_9" ∉ bp_id <$> m_breakpoints with_node_1)
   ∧ registry_wf (registry with_node_1)
   ∧ bp_node_1 ∈ m_breakpoints with_node_1)
  ∧ removeBreakpoint "bp_9" with_node_1 = with_node_1
  ∧ getBreakpointForNode "node_1" (removeBreakpoint "bp_1" with_node_1) = None
  ∧ m_nextBreakpointId (removeBreakpoint "bp_1" with_node_1)
    = m_nextBreakpointId with_node_1.
Proof.
  assert ("bp_9" ∉ bp_id <$> m_breakpoints with_node_1) as Hnew.
  { rewrite with_node_1_breakpoints. cbn.
    intros Hin. apply list_elem_of_singleton in Hin. discriminate Hin. }
  assert (bp_node_1 ∈ m_breakpoints with_node_1) as Hin
    by (rewrite with_node_1_breakpoints; apply list_elem_of_here).
  destruct (removeBreakpoint_erases_one bp_node_1 "bp_9" with_node_1)
    as [Hunknown Hknown].
  destruct (Hknown with_node_1_registry_wf Hin) as (Hget & _ & _ & _ & Hnext).
  split; [exact (conj Hnew (conj with_node_1_registry_wf Hin))|].
  split; [exact (Hunknown Hnew)|]. split; [exact Hget|exact Hnext].
Defined.

(** Scenario of X5: disabling bp_1 in the registry of the test. *)
Lemma setBreakpointEnabled_flips_one_witness :
  (("bp_9" ∉ bp_id <$> m_breakpoints with_node_1)
   ∧ registry_wf (registry with_node_1)
   ∧ bp_node_1 ∈ m_breakpoints with_node_1)
  ∧ setBreakpointEnabled "bp_9" false with_node_1 = with_node_1
  ∧ getBreakpointForNode "node_1" (setBreakpointEnabled "bp_1" false with_node_1)
    = Some (Breakpoint_set_enabled false bp_node_1)
  ∧ setBreakpointEnabled "bp_1" true
      (setBreakpointEnabled "bp_1" false with_node_1) = with_node_1.
Proof.
  assert ("bp_9" ∉ bp_id <$> m_breakpoints with_node_1) as Hnew.
  { rewrite with_node_1_breakpoints. cbn.
    intros Hin. apply list_elem_of_singleton in Hin. discriminate Hin. }
  assert (bp_node_1 ∈ m_breakpoints with_node_1) as Hin
    by (rewrite with_node_1_breakpoints; apply list_elem_of_here).
  destruct (setBreakpointEnabled_flips_one bp_node_1 "bp_9" false with_node_1)
    as [Hunknown Hknown].
  destruct (Hknown with_node_1_registry_wf Hin) as (Hget & _ & _ & _ & Hback).
  split; [exact (conj Hnew (conj with_node_1_registry_wf Hin))|].
  split; [exact (Hunknown Hnew)|]. split; [exact Hget|exact Hback].
Defined.

(** Scenario of X6: the breakpoint of [before_hit] disabled before the
    frame. *)
Lemma disabled_breakpoint_is_skipped_witness :
  (m_state before_hit = Playing
   ∧ registry_wf (registry before_hit)
   ∧ bp_n1 ∈ m_breakpoints before_hit
   ∧ bp_nodeId bp_n1 = m_currentNodeId before_hit)
  ∧ m_state (update (1 / 60)%float (setBreakpointEnabled "bp_1" false before_hit))
    = Playing
  ∧ getBreakpointForNode "n1"
      (update (1 / 60)%float (setBreakpointEnabled "bp_1" false before_hit))
    = Some (Breakpoint_set_enabled false bp_n1).
Proof.
  destruct before_hit_ready as (Hst & Hen & Hnode & Hbps).
  assert (bp_n1 ∈ m_breakpoints before_hit) as Hin
    by (rewrite Hbps; apply list_elem_of_here).
  assert (bp_nodeId bp_n1 = m_currentNodeId before_hit) as Hbp
    by (by rewrite Hnode).
  destruct (disabled_breakpoint_is_skipped (1 / 60)%float bp_n1 before_hit
              Hst before_hit_registry_wf Hin Hbp)
    as (Hstate & _ & Hget & _).
  exact (conj (conj Hst (conj before_hit_registry_wf (conj Hin Hbp)))
           (conj Hstate Hget)).
Defined.

(** Scenario of X7: two frames of [before_hit] with [continueExecution] in
    between. *)
Lemma continue_then_frame_hits_again_witness :
  (m_state before_hit = Playing
   ∧ enableBreakpoints (m_config before_hit) = true
   ∧ m_currentNodeId before_hit ≠ ""
   ∧ registry_wf (registry before_hit)
   ∧ bp_n1 ∈ m_breakpoints before_hit
   ∧ bp_nodeId bp_n1 = m_currentNodeId before_hit
   ∧ bp_enabled bp_n1 = true
   ∧ bp_hitOnce bp_n1 = false)
  ∧ m_state (update (1 / 60)%float
               (continueExecution (update (1 / 60)%float before_hit))) = Paused
  ∧ getBreakpointForNode "n1"
      (update (1 / 60)%float
         (continueExecution (update (1 / 60)%float before_hit)))
    = Some (Breakpoint_hit (Breakpoint_hit bp_n1)).
Proof.
  destruct before_hit_ready as (Hst & Hen & Hnode & Hbps).
  assert (m_currentNodeId before_hit ≠ "") as Hset by (by rewrite Hnode).
  assert (bp_n1 ∈ m_breakpoints before_hit) as Hin
    by (rewrite Hbps; apply list_elem_of_here).
  assert (bp_nodeId bp_n1 = m_currentNodeId before_hit) as Hbp
    by (by rewrite Hnode).
  destruct (continue_then_frame_hits_again (1 / 60)%float (1 / 60)%float bp_n1
              before_hit Hst Hen Hset before_hit_registry_wf Hin Hbp
              eq_refl eq_refl)
    as (_ & _ & Hstate & _ & Hget).
  split.
  { exact (conj Hst (conj Hen (conj Hset (conj before_hit_registry_wf
             (conj Hin (conj Hbp (conj eq_refl eq_refl))))))). }
  exact (conj Hstate Hget).
Defined.


(** Scenario of X9: the variables of [in_session]. *)
Lemma variables_read_back_witness :
  ("lives" ≠ "points"
   ∧ getAllVariables in_session !! "lives" = None
   ∧ isInPlayMode in_session = true)
  ∧ getVariable "lives" (setVariable "points" "13" in_session)
    = getVariable "lives" in_session
  ∧ getVariable "lives" in_session = ""
  ∧ getVariable "points" (stop (setVariable "points" "13" in_session)) = "".
Proof.
  destruct in_session_facts as (Hplay & _ & _).
  assert ("lives" ≠ "points") as Hne by discriminate.
  assert (getAllVariables in_session !! "lives" = None) as Hunset by by_eval.
  destruct (variables_read_back "points" "lives" "13" "14" in_session)
    as (_ & Hother & _ & _ & _ & Hstop).
  destruct (variables_read_back "lives" "points" "13" "14" in_session)
    as (_ & _ & Hnone & _).
  split; [exact (conj Hne (conj Hunset Hplay))|].
  split; [exact (Hother Hne)|]. split; [exact (Hnone Hunset)|].
  exact (Hstop Hplay).
Defined.

(** Scenario of X10: [togglePlayPause] at the breakpoint pause of [at_hit]
    and in a controller caught while starting. *)
Lemma togglePlayPause_transitions_witness :
  (m_state at_hit = Paused
   ∧ (m_state starting_controller = Starting
      ∨ m_state starting_controller = Stopping))
  ∧ m_atBreakpoint (@togglePlayPause Timeline_at_zero at_hit) = false
  ∧ @togglePlayPause Timeline_at_zero starting_controller = starting_controller.
Proof.
  destruct at_hit_paused as [Hst _].
  assert (m_state starting_controller = Starting
          ∨ m_state starting_controller = Stopping) as Htransient
    by (left; reflexivity).
  destruct (@togglePlayPause_transitions Timeline_at_zero at_hit)
    as (_ & Hflag & _).
  destruct (@togglePlayPause_transitions Timeline_at_zero starting_controller)
    as (_ & _ & Hsame).
  exact (conj (conj Hst Htransient) (conj (Hflag Hst) (Hsame Htransient))).
Defined.

(** Scenario of X11: [restart] at the breakpoint pause of [at_hit] and on
    the new controller. *)
Lemma restart_resets_session_witness :
  (m_state PlayModeController_new = Stopped
   ∧ m_state at_hit ≠ Stopped
   ∧ (m_state at_hit = Stopped ∨ m_state at_hit = Playing
      ∨ m_state at_hit = Paused))
  ∧ @restart Timeline_at_zero PlayModeController_new
    = @play Timeline_at_zero PlayModeController_new
  ∧ m_atBreakpoint (@restart Timeline_at_zero at_hit) = false
  ∧ m_state (@restart Timeline_at_zero at_hit) = Playing.
Proof.
  destruct at_hit_paused as [Hst _].
  assert (m_state at_hit ≠ Stopped) as Hrunning by (by rewrite Hst).
  assert (m_state at_hit = Stopped ∨ m_state at_hit = Playing
          ∨ m_state at_hit = Paused) as Hsettled by (right; right; exact Hst).
  destruct (@restart_resets_session Timeline_at_zero PlayModeController_new)
    as (_ & _ & _ & _ & _ & Hplay & _).
  destruct (@restart_resets_session Timeline_at_zero at_hit)
    as (_ & _ & _ & _ & _ & _ & Hclear & Hplaying).
  destruct (Hclear Hrunning) as (_ & Hflag & _).
  split; [exact (conj eq_refl (conj Hrunning Hsettled))|].
  split; [exact (Hplay eq_refl)|]. split; [exact Hflag|exact (Hplaying Hsettled)].
Defined.

(** Scenario of X12: a script error during [in_session], then [resume]. *)
Lemma notifyError_pauses_when_configured_witness :
  (m_state in_session = Playing
   ∧ pauseOnError (m_config in_session) = true
   ∧ m_atBreakpoint in_session = false)
  ∧ m_state (resume (notifyError "division by zero" "node_1" in_session))
    = Playing.
Proof.
  destruct in_session_facts as (_ & Hst & _).
  destruct in_session_idle as (_ & Hflag & Hcfg).
  destruct (notifyError_pauses_when_configured "division by zero" "node_1"
              in_session) as (_ & _ & _ & _ & Hresume).
  exact (conj (conj Hst (conj Hcfg Hflag)) (Hresume Hst Hcfg Hflag)).
Defined.

(** Scenario of X14: [continueExecution] on the new controller and at the
    breakpoint pause of [at_hit]. *)
Lemma continueExecution_is_resume_without_bus_event_witness :
  (m_atBreakpoint PlayModeController_new = false
   ∧ m_state at_hit = Paused ∧ m_atBreakpoint at_hit = true)
  ∧ continueExecution PlayModeController_new = PlayModeController_new
  ∧ resume (set_currentBreakpointId "" (set_atBreakpoint false at_hit))
    = emit (EventBus_publish (PlayModeStateChangedEvent Paused Playing))
        (continueExecution at_hit)
  ∧ m_state (continueExecution at_hit) = Playing.
Proof.
  destruct at_hit_paused as [Hst Hflag].
  destruct (continueExecution_is_resume_without_bus_event PlayModeController_new)
    as [Hidle _].
  destruct (continueExecution_is_resume_without_bus_event at_hit)
    as [_ Hleave].
  destruct (Hleave Hst Hflag) as (Hresume & Hstate & _).
  split; [exact (conj eq_refl (conj Hst Hflag))|].
  split; [exact (Hidle eq_refl)|]. exact (conj Hresume Hstate).
Defined.

(** Scenario of X15: [play(); stop()] on the new controller. *)
Lemma play_then_stop_restores_timeline_witness :
  m_state PlayModeController_new = Stopped
  ∧ ∃ time,
      m_sceneSnapshot (@play_with Timeline_at_zero PlayModeConfig_default
                         PlayModeController_new)
      = Some (mkSceneSnapshot "" [] time [] ∅)
      ∧ m_state (@play_with Timeline_at_zero PlayModeConfig_default
                   PlayModeController_new) = Playing
      ∧ m_state (stop (@play_with Timeline_at_zero PlayModeConfig_default
                         PlayModeController_new)) = Stopped
      ∧ m_sceneSnapshot (stop (@play_with Timeline_at_zero PlayModeConfig_default
                                 PlayModeController_new)) = None.
Proof.
  destruct (@play_then_stop_restores_timeline Timeline_at_zero
              PlayModeConfig_default PlayModeController_new eq_refl)
    as (time & Hsnap & _ & Hplaying & _ & _ & _ & _ & _ & _ & Hstopped & Hnone
        & _).
  split; [reflexivity|]. exists time.
  exact (conj Hsnap (conj Hplaying (conj Hstopped Hnone))).
Defined.

(** Scenario of X17: the four commands that lead to [before_hit]. *)
Lemma breakpoint_ids_are_fresh_witness :
  (N.of_nat (length before_hit_commands) + 2 < 2 ^ 64)%N
  ∧ NoDup (bp_id <$> m_breakpoints
             (@run Timeline_at_zero before_hit_commands PlayModeController_new))
  ∧ (fst (generateBreakpointId
            (@run Timeline_at_zero before_hit_commands PlayModeController_new))
     ∉ bp_id <$> m_breakpoints
         (@run Timeline_at_zero before_hit_commands PlayModeController_new)).
Proof.
  assert (N.of_nat (length before_hit_commands) + 2 < 2 ^ 64)%N as Hfew
    by by_eval.
  destruct (@breakpoint_ids_are_fresh Timeline_at_zero before_hit_commands Hfew)
    as (Hids & _ & Hfresh).
  exact (conj Hfew (conj Hids Hfresh)).
Defined.

(** Scenario of X19: the reachable state [at_hit]. *)
Lemma reachable_states_are_settled_witness :
  @reachable Timeline_at_zero at_hit
  ∧ (m_state at_hit = Stopped ∨ m_state at_hit = Playing
     ∨ m_state at_hit = Paused)
  ∧ (m_sceneSnapshot at_hit = None ↔ m_state at_hit = Stopped).
Proof.
  destruct (@reachable_states_are_settled Timeline_at_zero at_hit
              at_hit_reachable) as (Hsettled & Hsnap & _).
  exact (conj at_hit_reachable (conj Hsettled Hsnap)).
Defined.

(** Scenario of X20: listener 7 follows the frame that hits the breakpoint
    of [before_hit]. *)
Lemma listener_follows_state_witness :
  (NoDup (m_listeners before_hit) ∧ 7%N ∈ m_listeners before_hit)
  ∧ follow 7%N (m_state before_hit)
      (calls_since before_hit
         (@exec Timeline_at_zero (Call_update (1 / 60)%float) before_hit))
    = Some (m_state
              (@exec Timeline_at_zero (Call_update (1 / 60)%float) before_hit)).
Proof.
  assert (NoDup (m_listeners before_hit)) as Hnd
    by (rewrite before_hit_listeners; apply NoDup_singleton).
  assert (7%N ∈ m_listeners before_hit) as Hin
    by (rewrite before_hit_listeners; apply list_elem_of_here).
  exact (conj (conj Hnd Hin)
           (@listener_follows_state Timeline_at_zero
              (Call_update (1 / 60)%float) 7%N before_hit Hnd Hin)).
Defined.

(** Scenario of X21: the breakpoint callback of that frame goes to
    listener 7, which is registered. *)
Lemma only_registered_listeners_are_called_witness :
  (Listener_onBreakpointHit 7%N bp_n1
     ∈ calls_since before_hit
         (@exec Timeline_at_zero (Call_update (1 / 60)%float) before_hit)
   ∧ callback_listener (Listener_onBreakpointHit 7%N bp_n1) = Some 7%N)
  ∧ 7%N ∈ m_listeners before_hit.
Proof.
  assert (Listener_onBreakpointHit 7%N bp_n1
            ∈ calls_since before_hit
                (@exec Timeline_at_zero (Call_update (1 / 60)%float) before_hit))
    as Hcall.
  { assert (calls_since before_hit
              (@exec Timeline_at_zero (Call_update (1 / 60)%float) before_hit)
            = [Timeline_update (1 / 60)%float; Timeline_pause;
               Listener_onPlayModeStateChanged 7%N Playing Paused;
               Listener_onPlayModePaused 7%N;
               EventBus_publish (PlayModeStateChangedEvent Playing Paused);
               Listener_onBreakpointHit 7%N bp_n1;
               EventBus_publish (BreakpointHitEvent "bp_1" "n1" 0%N)]) as ->
      by by_eval.
    do 5 apply list_elem_of_further. apply list_elem_of_here. }
  pose proof (@only_registered_listeners_are_called Timeline_at_zero
                (Call_update (1 / 60)%float) before_hit) as Hall.
  rewrite Forall_forall in Hall.
  exact (conj (conj Hcall eq_refl) (Hall _ Hcall 7%N eq_refl)).
Defined.

(** Scenario of X22: [continueExecution] at the breakpoint pause of
    [at_hit] changes the state, tells listener 7 and publishes nothing;
    [stop] from there tells it two changes, of which the second is
    published. *)
Lemma bus_state_changes_witness :
  (omap published_state_change
     (calls_since at_hit (@exec Timeline_at_zero Call_continueExecution at_hit))
   = []
   ∧ m_state (@exec Timeline_at_zero Call_continueExecution at_hit)
     ≠ m_state at_hit
   ∧ NoDup (m_listeners at_hit) ∧ 7%N ∈ m_listeners at_hit
   ∧ ¬ ((Call_stop = Call_continueExecution ∨ Call_stop = Call_togglePlayPause)
        ∧ m_state at_hit = Paused ∧ m_atBreakpoint at_hit = true))
  ∧ m_state at_hit = Paused ∧ m_atBreakpoint at_hit = true
  ∧ m_state (@exec Timeline_at_zero Call_continueExecution at_hit) = Playing
  ∧ omap (state_change_for 7%N)
      (calls_since at_hit (@exec Timeline_at_zero Call_continueExecution at_hit))
    = [(Paused, Playing)]
  ∧ omap published_state_change
      (calls_since at_hit (@exec Timeline_at_zero Call_stop at_hit))
    = filter (λ change, is_transient change.2 = false)
        (omap (state_change_for 7%N)
           (calls_since at_hit (@exec Timeline_at_zero Call_stop at_hit)))
  ∧ omap (state_change_for 7%N)
      (calls_since at_hit (@exec Timeline_at_zero Call_stop at_hit))
    = [(Paused, Stopping); (Stopping, Stopped)].
Proof.
  assert (NoDup (m_listeners at_hit)) as Hnd.
  { assert (m_listeners at_hit = [7%N]) as -> by by_eval.
    apply NoDup_singleton. }
  assert (7%N ∈ m_listeners at_hit) as Hin.
  { assert (m_listeners at_hit = [7%N]) as -> by by_eval.
    apply list_elem_of_here. }
  assert (¬ ((Call_stop = Call_continueExecution
              ∨ Call_stop = Call_togglePlayPause)
             ∧ m_state at_hit = Paused ∧ m_atBreakpoint at_hit = true))
    as Hother by (intros [[?|?] _]; discriminate).
  assert (omap (state_change_for 7%N)
            (calls_since at_hit (@exec Timeline_at_zero Call_stop at_hit))
          = [(Paused, Stopping); (Stopping, Stopped)]) as Htold by by_eval.
  assert (omap published_state_change
            (calls_since at_hit
               (@exec Timeline_at_zero Call_continueExecution at_hit)) = [])
    as Hsilent by by_eval.
  assert (m_state (@exec Timeline_at_zero Call_continueExecution at_hit)
          ≠ m_state at_hit) as Hmoved.
  { assert (m_state (@exec Timeline_at_zero Call_continueExecution at_hit)
            = Playing) as -> by by_eval.
    destruct at_hit_paused as [-> _]. discriminate. }
  destruct (@bus_state_changes Timeline_at_zero Call_continueExecution 7%N
              at_hit) as (_ & Hwhy & Hbus).
  destruct (Hwhy Hsilent Hmoved) as (_ & Hst & Hflag & Hplaying).
  destruct (Hbus Hnd Hin) as [Hquiet _].
  destruct (Hquiet (conj (or_introl eq_refl) (conj Hst Hflag))) as [Hone _].
  destruct (@bus_state_changes Timeline_at_zero Call_stop 7%N at_hit)
    as (_ & _ & Hbus').
  destruct (Hbus' Hnd Hin) as [_ Hfilter].
  split.
  { exact (conj Hsilent (conj Hmoved (conj Hnd (conj Hin Hother)))). }
  exact (conj Hst (conj Hflag (conj Hplaying (conj Hone
           (conj (Hfilter Hother) Htold))))).
Defined.

(** Scenario of X24: a jump on the new controller, outside play mode. *)
Lemma position_moves_by_jump_only_witness :
  isInPlayMode PlayModeController_new = false
  ∧ @exec Timeline_at_zero (Call_jumpToNode "n1") PlayModeController_new
    = PlayModeController_new
  ∧ @exec Timeline_at_zero (Call_jumpToScene "intro") PlayModeController_new
    = PlayModeController_new.
Proof.
  destruct (@position_moves_by_jump_only Timeline_at_zero Call_play
              PlayModeController_new) as (_ & _ & Hidle).
  split; [reflexivity|].
  exact (conj (proj1 (Hidle eq_refl "n1")) (proj2 (Hidle eq_refl "intro"))).
Defined.
